(** * JustServiceHub: the booking lifecycle engine

    A shallow embedding of the route handlers that create bookings, change
    their status, cancel and delete them, and attach reviews:

    - [Bookings.POST]            src/app/api/bookings/route.ts          (POST)
    - [BookingById.PUT], [BookingById.DELETE]
                                 src/app/api/bookings/[id]/route.ts     (PUT, DELETE)
    - [AdminBookings.DELETE]     src/app/api/admin/bookings/route.ts    (DELETE)
    - [Reviews.POST], [Reviews.updateServiceRating]
                                 src/app/api/reviews/route.ts

    The three Prisma tables are finite maps keyed by the primary key [id].
    A handler is a function from the store to a new store and a response;
    a handler that throws is caught by its own [try]/[catch] and answers 500
    with whatever it had already written.

    JavaScript numbers are embedded as exact rationals ([Q]): comparisons
    are exact on both sides, the rounding error of IEEE doubles in the
    average of ratings is outside the model. *)

From stdpp Require Import gmap strings list fin_maps sorting.
From Stdlib Require Import Ascii QArith Qround Lqa.

Local Open Scope string_scope.
Local Open Scope Z_scope.

(** ** Principals *)

(** Modelled from the spec: the principal type delivered by the
    authentication middleware ([@/middleware/auth], [@/lib/auth]), which is
    not part of the sources at hand.  The handlers compare [user.role] with
    the strings ["user"], ["provider"] and ["admin"] only. *)
Module Role.
Inductive t := user | provider | admin.
End Role.

#[global] Instance Role_eq_dec : EqDecision Role.t.
Proof. solve_decision. Defined.

Module Principal.
Record t := mk { userId : string; role : Role.t }.
End Principal.

(** ** Tables *)

(** The declared weekly window of a service, as the provider dashboard
    types it: lower-case day names and two ["HH:MM"] strings. *)
Module Availability.
Record t := mk { days : list string; startTime : string; endTime : string }.
End Availability.

(** Modelled from the spec: the column types and defaults of the Prisma
    schema, which is not part of the sources at hand.  A review's [rating]
    is an integer column, a service's [rating] and the prices are decimal
    ones. *)
Module Service.
Record t := mk {
    id : string;
    providerId : string;
    price : Q;
    isActive : bool;
    availability : Availability.t;
    rating : Q;
    reviewCount : nat }.
End Service.

Module Booking.
Record t := mk {
    id : string;
    userId : string;
    providerId : string;
    serviceId : string;
    date : Z;
    status : string;
    notes : option string;
    totalPrice : Q;
    paymentStatus : string;
    createdAt : Z;
    updatedAt : Z }.
End Booking.

Module Review.
Record t := mk {
    id : string;
    userId : string;
    serviceId : string;
    providerId : string;
    bookingId : string;
    rating : Z;
    comment : option string;
    createdAt : Z }.
End Review.

Record Store := mkStore {
  services : gmap string Service.t;
  bookings : gmap string Booking.t;
  reviews : gmap string Review.t }.

(** Modelled from the spec: the schema defaults of a new booking, [status]
    and [paymentStatus] both ["pending"]. *)
Definition default_status : string := "pending".
Definition default_paymentStatus : string := "pending".

(** ** Responses *)

Inductive ErrorKind :=
  | ValidationError | NotFound | Forbidden | InvalidOperation
  | InvalidTransition | Conflict | Internal.

(** What [NextResponse.json({ error }, { status })] carries, with the kind
    of the error taxonomy it stands for. *)
Record Failure := mkFailure { kind : ErrorKind; http : nat; error : string }.

Inductive Response (A : Type) :=
  | Ok (a : A)
  | Fail (f : Failure).
Arguments Ok {A} a.
Arguments Fail {A} f.

Definition failed {A} (r : Response A) : Prop :=
  match r with Ok _ => False | Fail _ => True end.

Definition fails_with {A} (k : ErrorKind) (r : Response A) : Prop :=
  match r with Ok _ => False | Fail f => kind f = k end.

Definition internal_error : Failure :=
  mkFailure Internal 500 "Internal server error".

(** ** Queries *)

(** JavaScript truthiness of an optional string field: [truthy o] is the
    value when the field is present and not the empty string. *)
Definition truthy (o : option string) : option string :=
  match o with
  | Some s => if decide (s = "") then None else Some s
  | None => None
  end.

Section Queries.
Context {A : Type} (P : A → Prop) `{!∀ x, Decision (P x)}.

(** [findMany({ where })]: the rows that satisfy the condition. *)
Definition findMany (m : gmap string A) : list A :=
    filter P (snd <$> map_to_list m).

(** [findFirst({ where })], and [findUnique] on a unique column. *)
Definition findFirst (m : gmap string A) : option A :=
    head (findMany m).
End Queries.

(** The review that references a booking: the [review] relation of the
    booking, and the unique column [bookingId] of the review. *)
Definition review_of (id : string) (r : Review.t) : Prop :=
  Review.bookingId r = id.

#[global] Instance review_of_dec id r : Decision (review_of id r).
Proof. unfold review_of. apply _. Defined.

Definition set_services (f : gmap string Service.t → gmap string Service.t)
    (st : Store) : Store :=
  mkStore (f (services st)) (bookings st) (reviews st).

Definition set_bookings (f : gmap string Booking.t → gmap string Booking.t)
    (st : Store) : Store :=
  mkStore (services st) (f (bookings st)) (reviews st).

Definition set_reviews (f : gmap string Review.t → gmap string Review.t)
    (st : Store) : Store :=
  mkStore (services st) (bookings st) (f (reviews st)).

(** The [data] of [prisma.booking.update]: the columns named are written,
    the others kept. *)
Definition with_status (s : string) (b : Booking.t) : Booking.t :=
  Booking.mk (Booking.id b) (Booking.userId b) (Booking.providerId b)
    (Booking.serviceId b) (Booking.date b) s (Booking.notes b)
    (Booking.totalPrice b) (Booking.paymentStatus b) (Booking.createdAt b)
    (Booking.updatedAt b).

Definition with_notes (n : option string) (b : Booking.t) : Booking.t :=
  Booking.mk (Booking.id b) (Booking.userId b) (Booking.providerId b)
    (Booking.serviceId b) (Booking.date b) (Booking.status b) n
    (Booking.totalPrice b) (Booking.paymentStatus b) (Booking.createdAt b)
    (Booking.updatedAt b).

(** Modelled from the spec: the schema's [@updatedAt] column, which every
    [prisma.booking.update] stamps with the time of the write. *)
Definition touch (now : Z) (b : Booking.t) : Booking.t :=
  Booking.mk (Booking.id b) (Booking.userId b) (Booking.providerId b)
    (Booking.serviceId b) (Booking.date b) (Booking.status b) (Booking.notes b)
    (Booking.totalPrice b) (Booking.paymentStatus b) (Booking.createdAt b)
    now.

Definition with_paymentStatus (p : string) (b : Booking.t) : Booking.t :=
  Booking.mk (Booking.id b) (Booking.userId b) (Booking.providerId b)
    (Booking.serviceId b) (Booking.date b) (Booking.status b) (Booking.notes b)
    (Booking.totalPrice b) p (Booking.createdAt b) (Booking.updatedAt b).

Definition with_rating (r : Q) (n : nat) (s : Service.t) : Service.t :=
  Service.mk (Service.id s) (Service.providerId s) (Service.price s)
    (Service.isActive s) (Service.availability s) r n.

(** ** POST /api/bookings *)

Module Bookings.
Section Handler.

(** [new Date(date)] on the request's string: the instant in milliseconds,
    or [None] for an Invalid Date, which Prisma refuses by throwing. *)
Variable newDate : string → option Z.

Record Request := mkRequest {
  serviceId : option string;
  date : option string;
  notes : option string }.

Definition required_fields : Failure :=
  mkFailure ValidationError 400 "Service ID and date are required".
Definition service_unavailable : Failure :=
  mkFailure NotFound 404 "Service not found or unavailable".
Definition own_service : Failure :=
  mkFailure InvalidOperation 400 "Cannot book your own service".
Definition slot_taken : Failure :=
  mkFailure Conflict 400 "Service is not available at this time".

(** The [where] of the conflict query. *)
Definition conflicting (sid : string) (t : Z) (b : Booking.t) : Prop :=
  Booking.serviceId b = sid ∧ Booking.date b = t ∧
  Booking.status b ∈ ["pending"; "confirmed"; "in_progress"].

#[global] Instance conflicting_dec sid t b : Decision (conflicting sid t b).
Proof. unfold conflicting. apply _. Defined.

(** [fresh] is the id the database generates for the new row and [now] its
    clock; an id that is already taken violates the primary key and the
    [create] throws. *)
Definition POST (fresh : string) (now : Z) (st : Store) (user : Principal.t)
    (req : Request) : Store * Response Booking.t :=
  match truthy (serviceId req), truthy (date req) with
  | Some sid, Some d =>
      match services st !! sid with
      | None => (st, Fail service_unavailable)
      | Some service =>
          if negb (Service.isActive service) then (st, Fail service_unavailable)
          else if decide (Service.providerId service = Principal.userId user)
          then (st, Fail own_service)
          else
            match newDate d with
            | None => (st, Fail internal_error)
            | Some t =>
                match findFirst (conflicting sid t) (bookings st) with
                | Some _ => (st, Fail slot_taken)
                | None =>
                    let booking :=
                      Booking.mk fresh (Principal.userId user)
                        (Service.providerId service) sid t default_status
                        (notes req) (Service.price service)
                        default_paymentStatus now now in
                    match bookings st !! fresh with
                    | Some _ => (st, Fail internal_error)
                    | None => (set_bookings (insert fresh booking) st, Ok booking)
                    end
                end
            end
      end
  | _, _ => (st, Fail required_fields)
  end.

End Handler.
End Bookings.

(** ** PUT and DELETE /api/bookings/[id] *)

Module BookingById.

Record Request := mkRequest {
  status : option string;
  notes : option (option string) }.

Definition booking_not_found : Failure :=
  mkFailure NotFound 404 "Booking not found".
Definition unauthorized : Failure :=
  mkFailure Forbidden 403 "Unauthorized".
Definition invalid_transition : Failure :=
  mkFailure InvalidTransition 400 "Invalid status transition".
Definition cannot_cancel : Failure :=
  mkFailure InvalidOperation 400
    "Cannot cancel completed or already cancelled booking".

Definition allowedStatuses (r : Role.t) : list string :=
  match r with
  | Role.user => ["cancelled"]
  | Role.provider => ["confirmed"; "in_progress"; "completed"; "cancelled"]
  | Role.admin =>
      ["pending"; "confirmed"; "in_progress"; "completed"; "cancelled"]
  end.

(** [updateData]: [status] when it is truthy, [notes] when the key is there
    ([null] clears the column). *)
Definition updateData (req : Request) (b : Booking.t) : Booking.t :=
  let b := match truthy (status req) with
           | Some s => with_status s b
           | None => b
           end in
  match notes req with
  | Some n => with_notes n b
  | None => b
  end.

(** [status && !allowedStatuses[user.role]?.includes(status)] *)
Definition refused (r : Role.t) (req : Request) : bool :=
  match truthy (status req) with
  | Some s => bool_decide (s ∉ allowedStatuses r)
  | None => false
  end.

Definition PUT (now : Z) (st : Store) (user : Principal.t) (id : string)
    (req : Request) : Store * Response Booking.t :=
  match bookings st !! id with
  | None => (st, Fail booking_not_found)
  | Some booking =>
      if decide (Principal.role user = Role.user ∧
                 Booking.userId booking ≠ Principal.userId user)
      then (st, Fail unauthorized)
      else if decide (Principal.role user = Role.provider ∧
                      Booking.providerId booking ≠ Principal.userId user)
      then (st, Fail unauthorized)
      else if refused (Principal.role user) req
      then (st, Fail invalid_transition)
      else
        let updatedBooking := touch now (updateData req booking) in
        (set_bookings (insert id updatedBooking) st, Ok updatedBooking)
  end.

Definition DELETE (now : Z) (st : Store) (user : Principal.t) (id : string)
    : Store * Response unit :=
  match bookings st !! id with
  | None => (st, Fail booking_not_found)
  | Some booking =>
      if decide (Booking.status booking = "completed" ∨
                 Booking.status booking = "cancelled")
      then (st, Fail cannot_cancel)
      else if decide (Booking.userId booking ≠ Principal.userId user ∧
                      Booking.providerId booking ≠ Principal.userId user ∧
                      Principal.role user ≠ Role.admin)
      then (st, Fail unauthorized)
      else
        (set_bookings (insert id (touch now (with_status "cancelled" booking))) st,
         Ok ())
  end.

(** GET: the booking as its customer, its provider and admins may see it,
    with whether it can be reviewed.  The [where] of the review lookup is the
    caller's own review of the booking; the relations the response spells
    out ([service], [user], [provider]) are left to the row. *)
Definition own_review (id : string) (user : Principal.t) (r : Review.t)
    : Prop :=
  Review.bookingId r = id ∧ Review.userId r = Principal.userId user.

#[global] Instance own_review_dec id user r : Decision (own_review id user r).
Proof. unfold own_review. apply _. Defined.

Record Details := mkDetails { booking : Booking.t; canReview : bool }.

Definition GET (st : Store) (user : Principal.t) (id : string)
    : Response Details :=
  match bookings st !! id with
  | None => Fail booking_not_found
  | Some booking =>
      let isCustomer :=
        bool_decide (Booking.userId booking = Principal.userId user) in
      let isProvider :=
        bool_decide (Booking.providerId booking = Principal.userId user) in
      let isAdmin := bool_decide (Principal.role user = Role.admin) in
      if negb isCustomer && negb isProvider && negb isAdmin
      then Fail unauthorized
      else
        let review := findFirst (own_review id user) (reviews st) in
        Ok (mkDetails booking
              (bool_decide (Booking.status booking = "completed") &&
               negb (bool_decide (is_Some review))))
  end.

End BookingById.

(** ** DELETE /api/admin/bookings *)

Module AdminBookings.

Definition unauthorized : Failure :=
  mkFailure Forbidden 401 "Unauthorized".
Definition id_required : Failure :=
  mkFailure ValidationError 400 "Booking ID is required".
Definition booking_not_found : Failure :=
  mkFailure NotFound 404 "Booking not found".
Definition has_review : Failure :=
  mkFailure InvalidOperation 400 "Cannot delete booking with existing review".

(** [user] is what [getUserFromRequest] returns and [bookingId] what
    [searchParams.get("id")] does. *)
Definition DELETE (st : Store) (user : option Principal.t)
    (bookingId : option string) : Store * Response unit :=
  match user with
  | None => (st, Fail unauthorized)
  | Some u =>
      if decide (Principal.role u ≠ Role.admin) then (st, Fail unauthorized)
      else
        match truthy bookingId with
        | None => (st, Fail id_required)
        | Some id =>
            match bookings st !! id with
            | None => (st, Fail booking_not_found)
            | Some bookingData =>
                match findFirst (review_of id) (reviews st) with
                | Some _ => (st, Fail has_review)
                | None => (set_bookings (delete id) st, Ok ())
                end
            end
        end
  end.

(** PATCH: [updates] is the object of that name in the body, [None] when
    the body has none, which makes [updates.status] throw.  The spread
    writes every column the object names, the parties, the service, the
    date and the price among them; this record holds an object that names
    no column but [status], [paymentStatus] and [notes], and what is said
    of PATCH below is said of such a body.  [status] and [paymentStatus]
    are checked when truthy and written when present. *)
Record Updates := mkUpdates {
  status : option string;
  paymentStatus : option string;
  notes : option (option string) }.

Definition invalid_status : Failure :=
  mkFailure ValidationError 400 "Invalid status".
Definition invalid_payment_status : Failure :=
  mkFailure ValidationError 400 "Invalid payment status".

Definition validStatuses : list string :=
  ["pending"; "confirmed"; "in_progress"; "completed"; "cancelled"].
Definition validPaymentStatuses : list string :=
  ["pending"; "paid"; "refunded"].

(** [value && !valid.includes(value)] *)
Definition rejected (valid : list string) (value : option string) : bool :=
  match truthy value with
  | Some s => bool_decide (s ∉ valid)
  | None => false
  end.

(** [{ ...updates }] as the [data] of the update. *)
Definition spread (updates : Updates) (b : Booking.t) : Booking.t :=
  let b := match status updates with
           | Some s => with_status s b
           | None => b
           end in
  let b := match paymentStatus updates with
           | Some p => with_paymentStatus p b
           | None => b
           end in
  match notes updates with
  | Some n => with_notes n b
  | None => b
  end.

(** An update of a row that is not there throws, and the handler answers
    500. *)
Definition PATCH (now : Z) (st : Store) (user : option Principal.t)
    (bookingId : option string) (updates : option Updates)
    : Store * Response Booking.t :=
  match user with
  | None => (st, Fail unauthorized)
  | Some u =>
      if decide (Principal.role u ≠ Role.admin) then (st, Fail unauthorized)
      else
        match truthy bookingId with
        | None => (st, Fail id_required)
        | Some id =>
            match updates with
            | None => (st, Fail internal_error)
            | Some updates =>
                if rejected validStatuses (status updates)
                then (st, Fail invalid_status)
                else if rejected validPaymentStatuses (paymentStatus updates)
                then (st, Fail invalid_payment_status)
                else
                  match bookings st !! id with
                  | None => (st, Fail internal_error)
                  | Some b =>
                      let updatedBooking := touch now (spread updates b) in
                      (set_bookings (insert id updatedBooking) st,
                       Ok updatedBooking)
                  end
            end
        end
  end.

End AdminBookings.

(** ** POST /api/reviews *)

Module Reviews.

Record Request := mkRequest {
  bookingId : option string;
  rating : option Q;
  comment : option string }.

Definition required_fields : Failure :=
  mkFailure ValidationError 400 "Booking ID and rating are required".
Definition rating_range : Failure :=
  mkFailure ValidationError 400 "Rating must be between 1 and 5".
Definition booking_not_found : Failure :=
  mkFailure NotFound 404 "Booking not found".
Definition unauthorized : Failure :=
  mkFailure Forbidden 403 "Unauthorized".
Definition not_completed : Failure :=
  mkFailure InvalidOperation 400 "Can only review completed bookings".
Definition already_reviewed : Failure :=
  mkFailure Conflict 400 "Review already exists for this booking".

(** Truthiness of an optional number: absent and zero are falsy. *)
Definition truthy_number (o : option Q) : option Q :=
  match o with
  | Some q => if Qeq_dec q 0%Q then None else Some q
  | None => None
  end.

(** What the integer column [rating] keeps of the number handed to
    [create]: its whole part, so that 4.5 is stored as 4.  The handler
    passes the number on as it came; the ratings that reach the column are
    at least 1. *)
Definition as_Int (q : Q) : Z := Qfloor q.

(** [Math.round]: the nearest integer, a half going up. *)
Definition Math_round (x : Q) : Q := inject_Z (Qfloor (x + (1 # 2))%Q).

Definition of_service (serviceId : string) (r : Review.t) : Prop :=
  Review.serviceId r = serviceId.

#[global] Instance of_service_dec sid r : Decision (of_service sid r).
Proof. unfold of_service. apply _. Defined.

(** [None] when [prisma.service.update] finds no row and throws. *)
Definition updateServiceRating (st : Store) (serviceId : string)
    : option Store :=
  let reviews := findMany (of_service serviceId) (reviews st) in
  if decide (0 < length reviews)%nat then
    let sum := foldl (λ sum review, sum + Review.rating review) 0 reviews in
    let avgRating :=
      (inject_Z sum / inject_Z (Z.of_nat (length reviews)))%Q in
    match services st !! serviceId with
    | None => None
    | Some service =>
        Some (set_services
                (insert serviceId
                   (with_rating (Math_round (avgRating * 10) / 10)%Q
                      (length reviews) service)) st)
    end
  else Some st.

(** [fresh] is the id the database generates for the new review and [now]
    its clock.  The review is written before the rating is recomputed, so a
    throw of the recomputation leaves the review in place. *)
Definition POST (fresh : string) (now : Z) (st : Store) (user : Principal.t)
    (req : Request) : Store * Response Review.t :=
  match truthy (bookingId req), truthy_number (rating req) with
  | Some bid, Some rating =>
      if Qlt_le_dec rating 1%Q then (st, Fail rating_range)
      else if Qlt_le_dec 5%Q rating then (st, Fail rating_range)
      else
        match bookings st !! bid with
        | None => (st, Fail booking_not_found)
        | Some booking =>
            if decide (Booking.userId booking ≠ Principal.userId user)
            then (st, Fail unauthorized)
            else if decide (Booking.status booking ≠ "completed")
            then (st, Fail not_completed)
            else
              match findFirst (review_of bid) (reviews st) with
              | Some _ => (st, Fail already_reviewed)
              | None =>
                  match reviews st !! fresh with
                  | None =>
                      let review :=
                        Review.mk fresh (Principal.userId user)
                          (Booking.serviceId booking)
                          (Booking.providerId booking) bid (as_Int rating)
                          (comment req) now in
                      let st1 := set_reviews (insert fresh review) st in
                      match
                        updateServiceRating st1 (Booking.serviceId booking)
                      with
                      | None => (st1, Fail internal_error)
                      | Some st2 => (st2, Ok review)
                      end
                  | Some _ => (st, Fail internal_error)
                  end
              end
        end
  | _, _ => (st, Fail required_fields)
  end.

End Reviews.

(** ** GET /api/bookings *)

Module Listing.

(** What [searchParams.get] returns for the three parameters read. *)
Module Query.
Record t := mk {
  status : option string;
  page : option string;
  limit : option string }.
End Query.

Module Pagination.
Record t := mk { page : Z; limit : Z; total : nat; pages : option Z }.
End Pagination.

Record Page := mkPage {
  rows : list Booking.t;
  pagination : Pagination.t }.

(** [searchParams.get(name) || fallback] *)
Definition or_else (o : option string) (fallback : string) : string :=
  default fallback (truthy o).

(** The [where] object: the caller's own bookings for a user, the bookings
    made with them for a provider, all for an admin, and of the status asked
    for when one is. *)
Definition where_clause (user : Principal.t) (status : option string)
    (b : Booking.t) : Prop :=
  (Principal.role user = Role.user →
   Booking.userId b = Principal.userId user) ∧
  (Principal.role user = Role.provider →
   Booking.providerId b = Principal.userId user) ∧
  match truthy status with
  | Some s => Booking.status b = s
  | None => True
  end.

#[global] Instance where_clause_dec user status b :
  Decision (where_clause user status b).
Proof. unfold where_clause. destruct (truthy status); apply _. Defined.

(** [orderBy: { createdAt: "desc" }] *)
Definition newest_first (a b : Booking.t) : Prop :=
  Booking.createdAt b ≤ Booking.createdAt a.

#[global] Instance newest_first_dec : RelDecision newest_first.
Proof. unfold newest_first. intros a b. apply _. Defined.

(** [skip] and [take] on the ordered rows; a negative [take] counts from
    the end. *)
Definition window {A} (skip take : Z) (l : list A) : list A :=
  if decide (0 ≤ take)
  then firstn (Z.to_nat take) (skipn (Z.to_nat skip) l)
  else reverse (firstn (Z.to_nat (- take))
                  (skipn (Z.to_nat skip) (reverse l))).

(** [Math.ceil(total / limit)], not a number to put in the answer when
    [limit] is zero. *)
Definition pages_of (total : nat) (limit : Z) : option Z :=
  if decide (limit = 0) then None
  else Some (- ((- Z.of_nat total) / limit)).

(** Prisma takes [skip] and [take] as signed 64-bit integers. *)
Definition fits_Int64 (n : Z) : Prop := - 2 ^ 63 ≤ n < 2 ^ 63.

#[global] Instance fits_Int64_dec n : Decision (fits_Int64 n).
Proof. unfold fits_Int64. apply _. Defined.

Section Handler.

(** [parseInt] on a string: the number it returns, [None] for [NaN].
    Prisma throws for a [skip] or a [take] that is [NaN] or does not fit
    64 bits, and for a negative [skip]; the handler then answers 500.  The
    product is the exact one, which is what the arithmetic of the source
    gives for the numbers that fit 53 bits. *)
Variable parseInt : string → option Z.

Definition GET (st : Store) (user : Principal.t) (q : Query.t)
    : Response Page :=
  match parseInt (or_else (Query.page q) "1"),
        parseInt (or_else (Query.limit q) "10") with
  | Some page, Some limit =>
      let skip := (page - 1) * limit in
      if decide (skip < 0) then Fail internal_error
      else if decide (¬ fits_Int64 skip) then Fail internal_error
      else if decide (¬ fits_Int64 limit) then Fail internal_error
      else
        let found := findMany (where_clause user (Query.status q)) (bookings st) in
        let total := length found in
        Ok (mkPage (window skip limit (merge_sort newest_first found))
              (Pagination.mk page limit total (pages_of total limit)))
  | _, _ => Fail internal_error
  end.

End Handler.
End Listing.

(** ** PUT /api/services/[id] *)

Module ServiceById.

(** The columns of the request that the store keeps; the others ([name],
    [description], [category], [duration], [location], [tags]) belong to
    columns outside it.  A key that is absent leaves its column alone. *)
Record Request := mkRequest {
  price : option Q;
  isActive : option bool;
  availability : option Availability.t }.

Definition not_found : Failure :=
  mkFailure NotFound 404 "Service not found or unauthorized".

Definition data (req : Request) (s : Service.t) : Service.t :=
  Service.mk (Service.id s) (Service.providerId s)
    (default (Service.price s) (price req))
    (default (Service.isActive s) (isActive req))
    (default (Service.availability s) (availability req))
    (Service.rating s) (Service.reviewCount s).

(** The handler that the route wraps in [withRole(["provider"])]: the
    wrapper lets callers of the provider role through to it, and what it
    answers the others is outside the sources, so the statements about
    this handler are about a provider.  The service is looked for by its id
    and the caller as its provider. *)
Definition PUT (st : Store) (user : Principal.t) (id : string)
    (req : Request) : Store * Response Service.t :=
  match services st !! id with
  | None => (st, Fail not_found)
  | Some service =>
      if decide (Service.providerId service = Principal.userId user)
      then
        let updatedService := data req service in
        (set_services (insert id updatedService) st, Ok updatedService)
      else (st, Fail not_found)
  end.

End ServiceById.

(** ** Notions the statements use *)

(** Modelled from the spec: whether an instant (milliseconds since the
    epoch, read in UTC) falls inside a declared availability window.  No
    handler computes this; it only serves to say which dates lie outside the
    window. *)
Definition daysOfWeek : list string :=
  ["monday"; "tuesday"; "wednesday"; "thursday"; "friday"; "saturday";
   "sunday"].

Definition dayName (t : Z) : string :=
  default "" (daysOfWeek !! Z.to_nat ((t / 86400000 + 3) mod 7)).

Definition minuteOfDay (t : Z) : Z := (t mod 86400000) / 60000.

Definition digit (c : ascii) : option Z :=
  let n := Z.of_nat (nat_of_ascii c) in
  if decide (48 ≤ n ≤ 57) then Some (n - 48) else None.

Definition minutes (hhmm : string) : option Z :=
  match hhmm with
  | String h1 (String h2 (String ":" (String m1 (String m2 EmptyString)))) =>
      a ← digit h1; b ← digit h2; c ← digit m1; d ← digit m2;
      Some ((10 * a + b) * 60 + (10 * c + d))
  | _ => None
  end.

Definition within_window (a : Availability.t) (t : Z) : Prop :=
  dayName t ∈ Availability.days a ∧
  ∃ s e, minutes (Availability.startTime a) = Some s ∧
         minutes (Availability.endTime a) = Some e ∧
         s ≤ minuteOfDay t ≤ e.

Definition with_availability (a : Availability.t) (s : Service.t) : Service.t :=
  Service.mk (Service.id s) (Service.providerId s) (Service.price s)
    (Service.isActive s) a (Service.rating s) (Service.reviewCount s).

(** An active booking occupies the slot [(sid, t)]. *)
Definition slot_occupied (st : Store) (sid : string) (t : Z) : Prop :=
  ∃ k b, bookings st !! k = Some b ∧ Booking.serviceId b = sid ∧
         Booking.date b = t ∧
         Booking.status b ∈ ["pending"; "confirmed"; "in_progress"].

(** Some review references the booking [bid]. *)
Definition reviewed (st : Store) (bid : string) : Prop :=
  ∃ k r, reviews st !! k = Some r ∧ Review.bookingId r = bid.

(** Every booking refers to a service that is there: the foreign key of
    the [service] relation. *)
Definition bookings_reference_services (st : Store) : Prop :=
  ∀ k b, bookings st !! k = Some b →
         is_Some (services st !! Booking.serviceId b).

(** At most one review references a booking. *)
Definition one_review_per_booking (st : Store) : Prop :=
  ∀ k1 k2 r1 r2,
    reviews st !! k1 = Some r1 → reviews st !! k2 = Some r2 →
    Review.bookingId r1 = Review.bookingId r2 → k1 = k2.

(** The reviews linked to service [s], how many they are, what their
    ratings add up to, and the mean. *)
Definition linked_reviews (st : Store) (s : string) : gmap string Review.t :=
  filter (λ kr, Review.serviceId kr.2 = s) (reviews st).

Definition review_count (st : Store) (s : string) : nat :=
  size (linked_reviews st s).

Definition rating_total (st : Store) (s : string) : Z :=
  map_fold (λ _ r acc, acc + Review.rating r) 0 (linked_reviews st s).

Definition mean_rating (st : Store) (s : string) : Q :=
  inject_Z (rating_total st s) / inject_Z (Z.of_nat (review_count st s)).

(** [r] is [q] rounded to one decimal place: the multiple of a tenth
    nearest to [q], the upper one of two equally near. *)
Definition rounded_to_one_decimal (q r : Q) : Prop :=
  ∃ tenths : Z,
    (r == tenths # 10)%Q ∧
    (inject_Z tenths - (1 # 2) <= q * 10)%Q ∧
    (q * 10 < inject_Z tenths + (1 # 2))%Q.

(** ** Invariants of the store *)

(** A booking that occupies its slot. *)
Definition active (b : Booking.t) : Prop :=
  Booking.status b ∈ ["pending"; "confirmed"; "in_progress"].

(** At most one active booking per service and instant. *)
Definition active_slots_unique (st : Store) : Prop :=
  ∀ k1 k2 b1 b2,
    bookings st !! k1 = Some b1 → bookings st !! k2 = Some b2 →
    active b1 → active b2 →
    Booking.serviceId b1 = Booking.serviceId b2 →
    Booking.date b1 = Booking.date b2 → k1 = k2.

(** No booking is made by the provider it is made with. *)
Definition no_self_booking (st : Store) : Prop :=
  ∀ k b, bookings st !! k = Some b →
         Booking.userId b ≠ Booking.providerId b.

(** Every review references a booking that is there, and carries its
    customer, service and provider. *)
Definition reviews_match_bookings (st : Store) : Prop :=
  ∀ k r, reviews st !! k = Some r →
    ∃ b, bookings st !! Review.bookingId r = Some b ∧
         Booking.userId b = Review.userId r ∧
         Booking.serviceId b = Review.serviceId r ∧
         Booking.providerId b = Review.providerId r.

(** Every stored rating is between one and five. *)
Definition ratings_in_range (st : Store) : Prop :=
  ∀ k r, reviews st !! k = Some r → 1 ≤ Review.rating r ≤ 5.

(** The cached rating of every service that has reviews agrees with
    them. *)
Definition rating_cache_consistent (st : Store) : Prop :=
  ∀ s svc, services st !! s = Some svc → (0 < review_count st s)%nat →
    Service.reviewCount svc = review_count st s ∧
    rounded_to_one_decimal (mean_rating st s) (Service.rating svc).

(** ** Three rules as the specification words them *)

(** Terminal immutability: whatever the request and the actor, a booking
    that is completed or cancelled keeps its status across [PUT]. *)
Definition terminal_immutability : Prop :=
  ∀ now st u id req b b',
    bookings st !! id = Some b →
    Booking.status b ∈ ["completed"; "cancelled"] →
    bookings (BookingById.PUT now st u id req).1 !! id = Some b' →
    Booking.status b' = Booking.status b.

(** The deletion rule, for a handler [delete]: called by the booking's
    customer, its provider or an admin on a booking with a linked review, it
    fails with InvalidOperation and changes nothing. *)
Definition reviewed_delete_refused
    (delete : Store → Principal.t → string → Store * Response unit) : Prop :=
  ∀ st u id b,
    bookings st !! id = Some b →
    Booking.userId b = Principal.userId u ∨
    Booking.providerId b = Principal.userId u ∨
    Principal.role u = Role.admin →
    reviewed st id →
    fails_with InvalidOperation (delete st u id).2 ∧ (delete st u id).1 = st.

(** The single-review rule: once a review references a booking, a further
    submission for that booking fails with Conflict, whoever calls and
    whatever the rating. *)
Definition second_review_conflict : Prop :=
  ∀ fresh now st u req bid,
    truthy (Reviews.bookingId req) = Some bid →
    reviewed st bid →
    fails_with Conflict (Reviews.POST fresh now st u req).2.

(** ** A small marketplace to run the handlers on

    One service, at a price of 50, declared available on Mondays from 09:00
    to 17:00, with its provider, two customers, an admin, and a second
    provider who books the service as a customer. *)

Definition at_10_on_saturday : Z := 1717236000000.

Definition demo_newDate (s : string) : option Z :=
  if decide (s = "2024-06-01T10:00Z") then Some at_10_on_saturday else None.

Definition demo_service : Service.t :=
  Service.mk "S1" "P1" 50 true
    (Availability.mk ["monday"] "09:00" "17:00") 0 0.

Definition demo_store : Store := mkStore {[ "S1" := demo_service ]} ∅ ∅.

Definition customer1 : Principal.t := Principal.mk "C1" Role.user.
Definition customer2 : Principal.t := Principal.mk "C2" Role.user.
Definition provider1 : Principal.t := Principal.mk "P1" Role.provider.
Definition provider2 : Principal.t := Principal.mk "P2" Role.provider.
Definition admin1 : Principal.t := Principal.mk "A1" Role.admin.

Definition demo_request : Bookings.Request :=
  Bookings.mkRequest (Some "S1") (Some "2024-06-01T10:00Z") None.

(** The store after the first customer has booked the service: one
    booking, pending. *)
Definition booked : Store :=
  (Bookings.POST demo_newDate "B1" 100 demo_store customer1 demo_request).1.

(** The store after the second provider has. *)
Definition booked_by_provider : Store :=
  (Bookings.POST demo_newDate "B9" 100 demo_store provider2 demo_request).1.

(** The booking after its provider has moved it to [completed], then
    reviewed by its customer with four stars, then moved back to [confirmed]
    by its provider. *)
Definition completed_store : Store :=
  (BookingById.PUT 200 booked provider1 "B1"
     (BookingById.mkRequest (Some "completed") None)).1.

Definition reviewed_store : Store :=
  (Reviews.POST "R1" 300 completed_store customer1
     (Reviews.mkRequest (Some "B1") (Some 4%Q) None)).1.

Definition reopened_store : Store :=
  (BookingById.PUT 400 reviewed_store provider1 "B1"
     (BookingById.mkRequest (Some "confirmed") None)).1.

(** The slot of the first booking, cancelled by its customer, booked again
    by the second customer, and the first booking then confirmed by the
    provider. *)
Definition rebooked_store : Store :=
  (Bookings.POST demo_newDate "B2" 500
     (BookingById.DELETE 400 booked customer1 "B1").1 customer2
     demo_request).1.

Definition double_booked_store : Store :=
  (BookingById.PUT 600 rebooked_store provider1 "B1"
     (BookingById.mkRequest (Some "confirmed") None)).1.

(** A reading of decimal numerals to run the listing on: the digits of the
    string, nothing for anything else. *)
Fixpoint decimal_from (acc : Z) (s : string) : option Z :=
  match s with
  | EmptyString => Some acc
  | String c rest => d ← digit c; decimal_from (10 * acc + d) rest
  end.

Definition demo_parseInt (s : string) : option Z :=
  if decide (s = "") then None else decimal_from 0 s.

(** A request for the same service one day later, and the store after the
    second customer has made it. *)
Definition at_10_on_sunday : Z := 1717322400000.

Definition two_days_newDate (s : string) : option Z :=
  if decide (s = "2024-06-02T10:00Z") then Some at_10_on_sunday
  else demo_newDate s.

Definition two_bookings : Store :=
  (Bookings.POST two_days_newDate "B2" 150 booked customer2
     (Bookings.mkRequest (Some "S1") (Some "2024-06-02T10:00Z") None)).1.

(** ** The queries *)

Section QueryFacts.
Context {A : Type} (P : A → Prop) `{!∀ x, Decision (P x)}.
Implicit Types (m : gmap string A) (x : A).

Lemma elem_of_findMany m x :
  x ∈ findMany P m ↔ P x ∧ ∃ k, m !! k = Some x.
Proof.
  unfold findMany. rewrite list_elem_of_filter, list_elem_of_fmap.
  split.
  - intros [HP [[k y] [-> Hin]]]. split; [done|].
    exists k. by apply elem_of_map_to_list.
  - intros [HP [k Hk]]. split; [done|].
    exists (k, x). split; [done|]. by apply elem_of_map_to_list.
Qed.

Lemma findFirst_Some m x :
  findFirst P m = Some x → P x ∧ ∃ k, m !! k = Some x.
Proof.
  unfold findFirst. intros Hhd. apply head_Some_elem_of in Hhd.
  by apply elem_of_findMany.
Qed.

Lemma findFirst_None m :
  findFirst P m = None ↔ ∀ k x, m !! k = Some x → ¬ P x.
Proof.
  unfold findFirst. rewrite head_None. split.
  - intros Hnil k x Hk HP.
    assert (x ∈ findMany P m) as Hin by (apply elem_of_findMany; eauto).
    rewrite Hnil in Hin. by apply not_elem_of_nil in Hin.
  - intros Hno. destruct (findMany P m) as [|x l] eqn:E; [done|].
    assert (x ∈ findMany P m) as Hin by (rewrite E; left).
    apply elem_of_findMany in Hin as [HP [k Hk]]. by destruct (Hno k x).
Qed.

Lemma findFirst_is_Some m :
  is_Some (findFirst P m) ↔ ∃ k x, m !! k = Some x ∧ P x.
Proof.
  split.
  - intros [x Hx]. apply findFirst_Some in Hx as [HP [k Hk]]. eauto.
  - intros (k & x & Hk & HP).
    destruct (findFirst P m) eqn:E; [eauto|].
    rewrite findFirst_None in E. by destruct (E k x).
Qed.

End QueryFacts.

Section QueryCounts.
Context {A : Type} (P : A → Prop) `{!∀ x, Decision (P x)}.
Implicit Types (m : gmap string A) (x : A).

Lemma findMany_Permutation m :
  findMany P m ≡ₚ (map_to_list (filter (λ kx, P kx.2) m)).*2.
Proof.
  induction m as [|i x m Hi IH] using map_ind.
  - unfold findMany. by rewrite map_filter_empty, !map_to_list_empty.
  - unfold findMany in *. rewrite map_to_list_insert by done.
    rewrite fmap_cons, filter_cons. simpl.
    destruct (decide (P x)) as [HP|HP].
    + rewrite map_filter_insert_True by done.
      rewrite map_to_list_insert
        by (apply map_lookup_filter_None; by left).
      rewrite fmap_cons. simpl. by f_equiv.
    + rewrite map_filter_insert_not' ; [done|done|].
      intros y Hy. congruence.
Qed.

Lemma length_findMany m :
  length (findMany P m) = size (filter (λ kx, P kx.2) m).
Proof.
  by rewrite findMany_Permutation, length_fmap, length_map_to_list.
Qed.

Lemma foldl_sum (g : A → Z) (l : list A) z :
  foldl (λ sum x, sum + g x) z l = z + foldr (λ x acc, acc + g x) 0 l.
Proof.
  revert z. induction l as [|x l IH]; intros z; simpl; [lia|].
  rewrite IH. lia.
Qed.

Lemma foldr_sum_Permutation (g : A → Z) (l1 l2 : list A) :
  l1 ≡ₚ l2 →
  foldr (λ x acc, acc + g x) 0 l1 = foldr (λ x acc, acc + g x) 0 l2.
Proof. induction 1; simpl; lia. Qed.

Lemma sum_findMany (g : A → Z) m :
  foldl (λ sum x, sum + g x) 0 (findMany P m) =
  map_fold (λ _ x acc, acc + g x) 0 (filter (λ kx, P kx.2) m).
Proof.
  rewrite foldl_sum, (foldr_sum_Permutation g _ _ (findMany_Permutation m)).
  rewrite map_fold_foldr, Z.add_0_l.
  induction (map_to_list (filter (λ kx, P kx.2) m)) as [|[k x] l IH];
    simpl; [done|].
  f_equal. exact IH.
Qed.

End QueryCounts.

(** A lookup after an insert, by whether the keys agree. *)
Tactic Notation "lookup_insert_cases" constr(i) constr(k) :=
  destruct (decide (i = k)) as [->|];
  [rewrite lookup_insert_eq|rewrite lookup_insert_ne by done].

Lemma conflict_query st sid t :
  is_Some (findFirst (Bookings.conflicting sid t) (bookings st)) ↔
  slot_occupied st sid t.
Proof.
  rewrite findFirst_is_Some. unfold slot_occupied, Bookings.conflicting.
  naive_solver.
Qed.

Lemma review_query st bid :
  is_Some (findFirst (review_of bid) (reviews st)) ↔ reviewed st bid.
Proof. rewrite findFirst_is_Some. unfold reviewed, review_of. naive_solver. Qed.

(** ** Creating a booking *)

(** C1: a CreateBooking call with a service id and a date fails with
    NotFound when the service is missing or inactive; otherwise with
    InvalidOperation when the caller owns the service; otherwise with
    Conflict when an active booking has the same service and the same
    instant; otherwise it succeeds and inserts exactly one booking, pending,
    at the service's price, unpaid, from the caller to the service's
    provider.  Every failure leaves the store as it was. *)
Theorem create_booking_outcome (newDate : string → option Z) fresh now st u
    req sid d :
  truthy (Bookings.serviceId req) = Some sid →
  truthy (Bookings.date req) = Some d →
  let out := Bookings.POST newDate fresh now st u req in
  ((services st !! sid = None ∨
    ∃ svc, services st !! sid = Some svc ∧ Service.isActive svc = false) →
   fails_with NotFound out.2 ∧ out.1 = st) ∧
  (∀ svc, services st !! sid = Some svc → Service.isActive svc = true →
     (Service.providerId svc = Principal.userId u →
      fails_with InvalidOperation out.2 ∧ out.1 = st) ∧
     (Service.providerId svc ≠ Principal.userId u →
      ∀ t, newDate d = Some t →
        (slot_occupied st sid t → fails_with Conflict out.2 ∧ out.1 = st) ∧
        (¬ slot_occupied st sid t → bookings st !! fresh = None →
         ∃ b, out.2 = Ok b ∧
              bookings out.1 = <[fresh := b]> (bookings st) ∧
              services out.1 = services st ∧
              reviews out.1 = reviews st ∧
              Booking.status b = "pending" ∧
              Booking.totalPrice b = Service.price svc ∧
              Booking.paymentStatus b = "pending" ∧
              Booking.userId b = Principal.userId u ∧
              Booking.providerId b = Service.providerId svc ∧
              Booking.serviceId b = sid ∧
              Booking.date b = t))).
Proof.
  intros Hsid Hd out. subst out. unfold Bookings.POST. rewrite Hsid, Hd.
  split.
  - intros [-> | (svc & -> & ->)]; simpl; done.
  - intros svc -> Hact. rewrite Hact. simpl. split.
    + intros Hown. rewrite decide_True by done. done.
    + intros Hother t Ht. rewrite decide_False by done. rewrite Ht.
      split.
      * intros Hocc. apply conflict_query in Hocc as [b ->]. done.
      * intros Hfree Hfresh.
        destruct (findFirst _ _) as [b|] eqn:E.
        { destruct Hfree. apply conflict_query. rewrite E. eauto. }
        rewrite Hfresh. simpl. eexists. repeat split; reflexivity.
Qed.

Lemma create_booking_outcome_witness :
  ∃ b, (Bookings.POST demo_newDate "B1" 100 demo_store customer1 demo_request).2
       = Ok b ∧
       Booking.status b = "pending" ∧ Booking.totalPrice b = 50%Q.
Proof.
  destruct (create_booking_outcome demo_newDate "B1" 100 demo_store customer1
              demo_request "S1" "2024-06-01T10:00Z" eq_refl eq_refl)
    as [_ Hactive].
  destruct (Hactive demo_service eq_refl eq_refl) as [_ Hother].
  destruct (Hother ltac:(discriminate) at_10_on_saturday eq_refl)
    as [_ Hfree].
  destruct Hfree as (b & Hb & _ & _ & _ & Hst & Hprice & _).
  - intros (k & b & Hk & _). vm_compute in Hk. discriminate.
  - reflexivity.
  - exists b. auto.
Defined.

(** What is left of the handler once the service is found bookable. *)
Lemma POST_bookable (newDate : string → option Z) fresh now st u req sid d t
    svc :
  truthy (Bookings.serviceId req) = Some sid →
  truthy (Bookings.date req) = Some d →
  newDate d = Some t →
  services st !! sid = Some svc →
  Service.isActive svc = true →
  Service.providerId svc ≠ Principal.userId u →
  Bookings.POST newDate fresh now st u req =
  match findFirst (Bookings.conflicting sid t) (bookings st) with
  | Some _ => (st, Fail Bookings.slot_taken)
  | None =>
      match bookings st !! fresh with
      | Some _ => (st, Fail internal_error)
      | None =>
          let b := Booking.mk fresh (Principal.userId u)
                     (Service.providerId svc) sid t "pending"
                     (Bookings.notes req) (Service.price svc) "pending" now
                     now in
          (set_bookings (insert fresh b) st, Ok b)
      end
  end.
Proof.
  intros Hsid Hd Ht Hsvc Hact Hother.
  unfold Bookings.POST. rewrite Hsid, Hd, Hsvc, Hact. simpl.
  rewrite decide_False by done. by rewrite Ht.
Qed.

(** C2: for a bookable service the conflict check reports the slot taken
    exactly when an active booking has the same service and the same
    instant.  The declared availability window plays no part: replacing it
    changes neither the answer nor the bookings, and a date outside the
    window with no collision is booked. *)
Theorem conflict_check_exact_slot (newDate : string → option Z) fresh now st u
    req sid d t svc :
  truthy (Bookings.serviceId req) = Some sid →
  truthy (Bookings.date req) = Some d →
  newDate d = Some t →
  services st !! sid = Some svc →
  Service.isActive svc = true →
  Service.providerId svc ≠ Principal.userId u →
  let out := Bookings.POST newDate fresh now st u req in
  (fails_with Conflict out.2 ↔ slot_occupied st sid t) ∧
  (∀ a,
     let out' :=
       Bookings.POST newDate fresh now
         (set_services (insert sid (with_availability a svc)) st) u req in
     out'.2 = out.2 ∧ bookings out'.1 = bookings out.1) ∧
  (¬ within_window (Service.availability svc) t →
   ¬ slot_occupied st sid t →
   bookings st !! fresh = None →
   ∃ b, out.2 = Ok b ∧ bookings out.1 = <[fresh := b]> (bookings st)).
Proof.
  intros Hsid Hd Ht Hsvc Hact Hother out.
  assert (Hout : out = Bookings.POST newDate fresh now st u req) by done.
  rewrite (POST_bookable _ _ _ _ _ _ _ _ _ _ Hsid Hd Ht Hsvc Hact Hother)
    in Hout.
  split; [|split].
  - rewrite Hout. destruct (findFirst _ _) as [b|] eqn:E.
    + split; [|done]. intros _. apply conflict_query. rewrite E. eauto.
    + split.
      * destruct (bookings st !! fresh); simpl; [intros [=]|done].
      * intros Hocc%conflict_query. rewrite E in Hocc. by destruct Hocc.
  - intros a out'. subst out'.
    rewrite (POST_bookable _ _ _ _ _ _ sid d t (with_availability a svc));
      [|done|done|done|apply lookup_insert_eq|done|done].
    rewrite Hout. simpl.
    destruct (findFirst _ _); [done|].
    destruct (bookings st !! fresh); done.
  - intros _ Hfree Hfresh. rewrite Hout.
    destruct (findFirst _ _) as [b|] eqn:E.
    + destruct Hfree. apply conflict_query. rewrite E. eauto.
    + rewrite Hfresh. simpl. eauto.
Qed.

Lemma conflict_check_exact_slot_witness :
  ¬ within_window (Service.availability demo_service) at_10_on_saturday ∧
  ∃ b, (Bookings.POST demo_newDate "B1" 100 demo_store customer1 demo_request).2
       = Ok b.
Proof.
  assert (¬ within_window (Service.availability demo_service)
              at_10_on_saturday) as Hout.
  { intros [Hday _]. vm_compute in Hday.
    apply list_elem_of_singleton in Hday. discriminate. }
  assert (¬ slot_occupied demo_store "S1" at_10_on_saturday) as Hfree.
  { intros (k & b & Hk & _). vm_compute in Hk. discriminate. }
  split; [exact Hout|].
  destruct (conflict_check_exact_slot demo_newDate "B1" 100 demo_store customer1
              demo_request "S1" "2024-06-01T10:00Z" at_10_on_saturday
              demo_service eq_refl eq_refl eq_refl eq_refl eq_refl
              ltac:(discriminate)) as (_ & _ & Hbooked).
  destruct (Hbooked Hout Hfree eq_refl) as (b & Hb & _). eauto.
Defined.

(** ** Changing the status of a booking *)

(** What is left of the handler for a booking that is there, an actor whose
    role matches the booking, and a status in the request. *)
Lemma PUT_authorized now st u id req b target :
  bookings st !! id = Some b →
  truthy (BookingById.status req) = Some target →
  (Principal.role u = Role.user → Booking.userId b = Principal.userId u) →
  (Principal.role u = Role.provider →
   Booking.providerId b = Principal.userId u) →
  BookingById.PUT now st u id req =
  if decide (target ∈ BookingById.allowedStatuses (Principal.role u))
  then
    let b' := touch now (BookingById.updateData req b) in
    (set_bookings (insert id b') st, Ok b')
  else (st, Fail BookingById.invalid_transition).
Proof.
  intros Hb Hreq Hcust Hprov. unfold BookingById.PUT. rewrite Hb.
  rewrite decide_False by (intros [Hr Hne]; auto).
  rewrite decide_False by (intros [Hr Hne]; auto).
  unfold BookingById.refused. rewrite Hreq.
  destruct (decide (target ∈ _)) as [Hin|Hout].
  - by rewrite bool_decide_eq_false_2 by (by intros ?).
  - by rewrite bool_decide_eq_true_2.
Qed.

Lemma updateData_status req b target :
  truthy (BookingById.status req) = Some target →
  Booking.status (BookingById.updateData req b) = target.
Proof.
  intros Hreq. unfold BookingById.updateData. rewrite Hreq.
  by destruct (BookingById.notes req).
Qed.

(** C3: on an existing booking, for an actor whose role matches the booking
    (a user its customer, a provider its provider, an admin always), a
    Transition fails with InvalidTransition exactly when the target is
    outside the permitted set of the actor's role; otherwise it succeeds
    and the booking takes the target.  The current status is not looked at:
    the same request meets the same verdict on any other booking the actor
    is authorized for. *)
Theorem transition_validity now st u id req b target :
  bookings st !! id = Some b →
  truthy (BookingById.status req) = Some target →
  (Principal.role u = Role.user → Booking.userId b = Principal.userId u) →
  (Principal.role u = Role.provider →
   Booking.providerId b = Principal.userId u) →
  let out := BookingById.PUT now st u id req in
  (Principal.role u = Role.user →
   (fails_with InvalidTransition out.2 ↔ target ≠ "cancelled")) ∧
  (Principal.role u = Role.provider →
   (fails_with InvalidTransition out.2 ↔
    target ∉ ["confirmed"; "in_progress"; "completed"; "cancelled"])) ∧
  (Principal.role u = Role.admin →
   (fails_with InvalidTransition out.2 ↔
    target ∉
      ["pending"; "confirmed"; "in_progress"; "completed"; "cancelled"])) ∧
  (¬ fails_with InvalidTransition out.2 →
   ∃ b', out.2 = Ok b' ∧ bookings out.1 !! id = Some b' ∧
         Booking.status b' = target) ∧
  (∀ now2 st2 id2 b2,
     bookings st2 !! id2 = Some b2 →
     (Principal.role u = Role.user →
      Booking.userId b2 = Principal.userId u) →
     (Principal.role u = Role.provider →
      Booking.providerId b2 = Principal.userId u) →
     (fails_with InvalidTransition (BookingById.PUT now2 st2 u id2 req).2 ↔
      fails_with InvalidTransition out.2)).
Proof.
  intros Hb Hreq Hcust Hprov out.
  assert (Hverdict : ∀ now2 st2 id2 b2,
    bookings st2 !! id2 = Some b2 →
    (Principal.role u = Role.user →
     Booking.userId b2 = Principal.userId u) →
    (Principal.role u = Role.provider →
     Booking.providerId b2 = Principal.userId u) →
    (fails_with InvalidTransition (BookingById.PUT now2 st2 u id2 req).2 ↔
     target ∉ BookingById.allowedStatuses (Principal.role u))).
  { intros now2 st2 id2 b2 Hb2 Hc2 Hp2.
    rewrite (PUT_authorized _ _ _ _ _ _ _ Hb2 Hreq Hc2 Hp2).
    destruct (decide _); simpl; split; done. }
  pose proof (Hverdict now st id b Hb Hcust Hprov) as Hout.
  fold out in Hout.
  split; [|split; [|split; [|split]]].
  - intros Hrole. rewrite Hout, Hrole. simpl.
    by rewrite list_elem_of_singleton.
  - intros Hrole. by rewrite Hout, Hrole.
  - intros Hrole. by rewrite Hout, Hrole.
  - intros Hok. subst out.
    rewrite (PUT_authorized _ _ _ _ _ _ _ Hb Hreq Hcust Hprov) in Hok |- *.
    destruct (decide _); simpl in *; [|done].
    eexists. split; [done|]. split; [by rewrite lookup_insert_eq|].
    by apply updateData_status.
  - intros now2 st2 id2 b2 Hb2 Hc2 Hp2.
    by rewrite Hout, (Hverdict now2 st2 id2 b2 Hb2 Hc2 Hp2).
Qed.

Lemma transition_validity_witness :
  fails_with InvalidTransition
    (BookingById.PUT 200 booked customer1 "B1"
       (BookingById.mkRequest (Some "confirmed") None)).2.
Proof.
  destruct (transition_validity 200 booked customer1 "B1"
              (BookingById.mkRequest (Some "confirmed") None)
              _ "confirmed" eq_refl eq_refl (λ _, eq_refl)
              ltac:(discriminate)) as (Huser & _).
  apply Huser; [reflexivity|discriminate].
Defined.

(** C10: authorization goes by the role.  A principal with the provider
    role who is the customer of a booking made with another provider is
    refused with Forbidden whatever the request, a cancellation included,
    and nothing is written; the same person under the user role is allowed
    to cancel. *)
Theorem provider_role_customer_forbidden now st u id req b :
  bookings st !! id = Some b →
  Principal.role u = Role.provider →
  Booking.userId b = Principal.userId u →
  Booking.providerId b ≠ Principal.userId u →
  let out := BookingById.PUT now st u id req in
  fails_with Forbidden out.2 ∧ out.1 = st ∧
  ∃ b', (BookingById.PUT now st (Principal.mk (Principal.userId u) Role.user)
           id (BookingById.mkRequest (Some "cancelled") None)).2 = Ok b' ∧
        Booking.status b' = "cancelled".
Proof.
  intros Hb Hrole Hcust Hprov out.
  assert (Hout : out = (st, Fail BookingById.unauthorized)).
  { subst out. unfold BookingById.PUT. rewrite Hb.
    destruct (decide (Principal.role u = Role.user ∧ _)) as [[Hr _]|_].
    { congruence. }
    by rewrite decide_True. }
  rewrite Hout. split; [done|]. split; [done|].
  rewrite (PUT_authorized now st (Principal.mk (Principal.userId u) Role.user)
             id (BookingById.mkRequest (Some "cancelled") None) b "cancelled"
             Hb eq_refl);
    [|done|simpl; discriminate].
  simpl. eauto.
Qed.

Lemma provider_role_customer_forbidden_witness :
  fails_with Forbidden
    (BookingById.PUT 200 booked_by_provider provider2 "B9"
       (BookingById.mkRequest (Some "cancelled") None)).2.
Proof.
  destruct (provider_role_customer_forbidden 200 booked_by_provider provider2 "B9"
              (BookingById.mkRequest (Some "cancelled") None) _
              eq_refl eq_refl eq_refl ltac:(discriminate)) as (Hf & _).
  exact Hf.
Defined.

(** ** Terminal bookings *)

(** C4, as the specification words it, does not hold: the provider of a
    completed booking moves it back to [confirmed]. *)
Lemma terminal_immutability_fails : ¬ terminal_immutability.
Proof.
  intros Himm.
  specialize (Himm 300 completed_store provider1 "B1"
                (BookingById.mkRequest (Some "confirmed") None) _ _
                eq_refl (list_elem_of_here _ _) eq_refl).
  discriminate Himm.
Qed.

(** C4, amended: a booking that is completed or cancelled cannot be
    cancelled through the cancel operation, which answers InvalidOperation
    to every actor and writes nothing.  Transition does not look at the
    current status: a target other than [cancelled] that the actor's role
    permits is applied to such a booking all the same. *)
Theorem terminal_booking_operations now st id b :
  bookings st !! id = Some b →
  Booking.status b = "completed" ∨ Booking.status b = "cancelled" →
  (∀ u, let out := BookingById.DELETE now st u id in
        fails_with InvalidOperation out.2 ∧ out.1 = st) ∧
  (∀ u req target,
     truthy (BookingById.status req) = Some target →
     (Principal.role u = Role.user →
      Booking.userId b = Principal.userId u) →
     (Principal.role u = Role.provider →
      Booking.providerId b = Principal.userId u) →
     target ∈ BookingById.allowedStatuses (Principal.role u) →
     target ≠ "cancelled" →
     let out := BookingById.PUT now st u id req in
     ∃ b', out.2 = Ok b' ∧ bookings out.1 !! id = Some b' ∧
           Booking.status b' = target).
Proof.
  intros Hb Hterm. split.
  - intros u out. subst out. unfold BookingById.DELETE.
    rewrite Hb. by rewrite decide_True.
  - intros u req target Hreq Hcust Hprov Hallowed _ out. subst out.
    rewrite (PUT_authorized _ _ _ _ _ _ _ Hb Hreq Hcust Hprov).
    rewrite decide_True by done. simpl.
    eexists. split; [done|]. split; [by rewrite lookup_insert_eq|].
    by apply updateData_status.
Qed.

Lemma terminal_booking_operations_witness :
  (BookingById.DELETE 300 completed_store admin1 "B1").1 = completed_store ∧
  ∃ b', (BookingById.PUT 300 completed_store provider1 "B1"
           (BookingById.mkRequest (Some "confirmed") None)).2 = Ok b' ∧
        Booking.status b' = "confirmed".
Proof.
  destruct (terminal_booking_operations 300 completed_store "B1" _
              eq_refl (or_introl eq_refl)) as [Hcancel Hput].
  split; [apply (Hcancel admin1)|].
  destruct (Hput provider1 (BookingById.mkRequest (Some "confirmed") None)
              "confirmed" eq_refl ltac:(discriminate) (λ _, eq_refl)
              (list_elem_of_here _ _) ltac:(discriminate))
    as (b' & Hok & _ & Hstatus).
  eauto.
Defined.

(** ** Failures write nothing *)

Lemma bookings_POST_failed (newDate : string → option Z) fresh now st u req :
  failed (Bookings.POST newDate fresh now st u req).2 →
  (Bookings.POST newDate fresh now st u req).1 = st.
Proof.
  unfold Bookings.POST. repeat case_match; simpl; done.
Qed.

Lemma PUT_failed now st u id req :
  failed (BookingById.PUT now st u id req).2 →
  (BookingById.PUT now st u id req).1 = st.
Proof.
  unfold BookingById.PUT. repeat case_match; simpl; done.
Qed.

Lemma cancel_failed now st u id :
  failed (BookingById.DELETE now st u id).2 →
  (BookingById.DELETE now st u id).1 = st.
Proof.
  unfold BookingById.DELETE. repeat case_match; simpl; done.
Qed.

Lemma admin_DELETE_failed st user bid :
  failed (AdminBookings.DELETE st user bid).2 →
  (AdminBookings.DELETE st user bid).1 = st.
Proof.
  unfold AdminBookings.DELETE. repeat case_match; simpl; done.
Qed.

Lemma updateServiceRating_Some st sid :
  is_Some (services st !! sid) → is_Some (Reviews.updateServiceRating st sid).
Proof.
  intros [svc Hsvc]. unfold Reviews.updateServiceRating.
  case_decide; [|eauto]. rewrite Hsvc. eauto.
Qed.

Lemma reviews_POST_failed fresh now st u req :
  bookings_reference_services st →
  failed (Reviews.POST fresh now st u req).2 →
  (Reviews.POST fresh now st u req).1 = st.
Proof.
  intros Hfk. unfold Reviews.POST.
  repeat case_match; simpl; try done.
  intros _.
  match goal with
  | Hb : bookings st !! _ = Some ?b,
    Hnone : Reviews.updateServiceRating ?st1 _ = None |- _ =>
      destruct (updateServiceRating_Some st1 (Booking.serviceId b)) as [? Hs];
        [exact (Hfk _ _ Hb)|congruence]
  end.
Qed.

Lemma updateServiceRating_tables st sid st' :
  Reviews.updateServiceRating st sid = Some st' →
  bookings st' = bookings st ∧ reviews st' = reviews st.
Proof.
  unfold Reviews.updateServiceRating.
  repeat case_match; intros [= <-]; done.
Qed.

Lemma reviews_POST_bookings fresh now st u req :
  bookings (Reviews.POST fresh now st u req).1 = bookings st.
Proof.
  unfold Reviews.POST. repeat case_match; simpl; try done.
  match goal with
  | Hup : Reviews.updateServiceRating _ _ = Some _ |- _ =>
      by apply updateServiceRating_tables in Hup as [-> _]
  end.
Qed.

Lemma updateData_serviceId req b :
  Booking.serviceId (BookingById.updateData req b) = Booking.serviceId b.
Proof. unfold BookingById.updateData. by repeat case_match. Qed.

Lemma updateServiceRating_keeps_services st sid st' k :
  Reviews.updateServiceRating st sid = Some st' →
  is_Some (services st !! k) → is_Some (services st' !! k).
Proof.
  unfold Reviews.updateServiceRating.
  repeat case_match; intros [= <-] Hk; simpl; try done.
  lookup_insert_cases sid k; eauto.
Qed.

(** The foreign key is an invariant of the handlers. *)
Lemma integrity_preserved st :
  bookings_reference_services st →
  (∀ (newDate : string → option Z) fresh now u req,
     bookings_reference_services
       (Bookings.POST newDate fresh now st u req).1) ∧
  (∀ now u id req,
     bookings_reference_services (BookingById.PUT now st u id req).1) ∧
  (∀ now u id,
     bookings_reference_services (BookingById.DELETE now st u id).1) ∧
  (∀ user bid,
     bookings_reference_services (AdminBookings.DELETE st user bid).1) ∧
  (∀ fresh now u req,
     bookings_reference_services (Reviews.POST fresh now st u req).1).
Proof.
  intros Hfk. split_and!.
  - intros newDate fresh now u req. unfold Bookings.POST.
    repeat case_match; simpl; try done.
    intros k b. simpl. lookup_insert_cases fresh k.
    + intros [= <-]. simpl. eauto.
    + apply Hfk.
  - intros now u id req. unfold BookingById.PUT.
    repeat case_match; simpl; try done.
    intros k b. simpl. lookup_insert_cases id k.
    + intros [= <-]. simpl.
      rewrite updateData_serviceId. eauto.
    + apply Hfk.
  - intros now u id. unfold BookingById.DELETE.
    repeat case_match; simpl; try done.
    intros k b. simpl. lookup_insert_cases id k.
    + intros [= <-]. simpl. eauto.
    + apply Hfk.
  - intros user bid. unfold AdminBookings.DELETE.
    repeat case_match; simpl; try done.
    intros k b. simpl. intros Hk%lookup_delete_Some. destruct Hk as [_ Hk].
    by eapply Hfk.
  - intros fresh now u req k b.
    rewrite reviews_POST_bookings. intros Hk. specialize (Hfk k b Hk).
    unfold Reviews.POST. repeat case_match; simpl; try done.
    by eapply updateServiceRating_keeps_services.
Qed.

(** C8: a handler that answers with an error has written nothing, the
    review handler as long as bookings refer to services that are there.
    In particular a Transition refused for authorization or for its target
    leaves the booking as it was, [status], [notes] and [updatedAt]
    included. *)
Theorem errors_leave_store_unchanged :
  (∀ (newDate : string → option Z) fresh now st u req,
     failed (Bookings.POST newDate fresh now st u req).2 →
     (Bookings.POST newDate fresh now st u req).1 = st) ∧
  (∀ now st u id req,
     failed (BookingById.PUT now st u id req).2 →
     (BookingById.PUT now st u id req).1 = st) ∧
  (∀ now st u id,
     failed (BookingById.DELETE now st u id).2 →
     (BookingById.DELETE now st u id).1 = st) ∧
  (∀ st user bid,
     failed (AdminBookings.DELETE st user bid).2 →
     (AdminBookings.DELETE st user bid).1 = st) ∧
  (∀ fresh now st u req,
     bookings_reference_services st →
     failed (Reviews.POST fresh now st u req).2 →
     (Reviews.POST fresh now st u req).1 = st) ∧
  (∀ now st u id req,
     fails_with Forbidden (BookingById.PUT now st u id req).2 ∨
     fails_with InvalidTransition (BookingById.PUT now st u id req).2 →
     bookings (BookingById.PUT now st u id req).1 !! id = bookings st !! id).
Proof.
  split_and!.
  - apply bookings_POST_failed.
  - apply PUT_failed.
  - apply cancel_failed.
  - apply admin_DELETE_failed.
  - apply reviews_POST_failed.
  - intros now st u id req Hkind. rewrite PUT_failed; [done|].
    destruct (BookingById.PUT now st u id req).2; simpl in *; tauto.
Qed.

(** ** Deleting a booking *)

(** C9, as the specification words it, holds for neither handler.  The
    admin route refuses the customer of a reviewed booking as unauthorized,
    not with InvalidOperation; the route of the booking itself cancels a
    reviewed booking that its provider had moved back to [confirmed]. *)
Lemma reviewed_delete_refused_fails :
  ¬ reviewed_delete_refused
      (λ st u id, AdminBookings.DELETE st (Some u) (Some id)) ∧
  ¬ reviewed_delete_refused (BookingById.DELETE 500).
Proof.
  split; intros Hrule.
  - destruct (Hrule reviewed_store customer1 "B1" _ eq_refl (or_introl eq_refl))
      as [Hkind _].
    + exists "R1". eexists. split; reflexivity.
    + vm_compute in Hkind. discriminate Hkind.
  - destruct (Hrule reopened_store customer1 "B1" _ eq_refl (or_introl eq_refl))
      as [Hkind _].
    + exists "R1". eexists. split; reflexivity.
    + vm_compute in Hkind. exact Hkind.
Qed.

Lemma PUT_keeps_rows now st u id req k :
  is_Some (bookings st !! k) →
  is_Some (bookings (BookingById.PUT now st u id req).1 !! k).
Proof.
  intros Hk. unfold BookingById.PUT.
  repeat case_match; simpl; try done;
    (lookup_insert_cases id k; eauto).
Qed.

Lemma cancel_keeps_rows now st u id k :
  is_Some (bookings st !! k) →
  is_Some (bookings (BookingById.DELETE now st u id).1 !! k).
Proof.
  intros Hk. unfold BookingById.DELETE.
  repeat case_match; simpl; try done.
  lookup_insert_cases id k; eauto.
Qed.

Lemma bookings_POST_keeps_rows (newDate : string → option Z) fresh now st u
    req k :
  is_Some (bookings st !! k) →
  is_Some (bookings (Bookings.POST newDate fresh now st u req).1 !! k).
Proof.
  intros Hk. unfold Bookings.POST.
  repeat case_match; simpl; try done.
  lookup_insert_cases fresh k; eauto.
Qed.

(** C9, amended: a booking leaves the store only through the admin route,
    only when the caller is an admin and no review is linked to it.  For an
    admin, a linked review makes the delete fail with InvalidOperation;
    whoever is not an admin is refused as unauthorized; either way booking
    and review stay as they were.  No other handler removes a booking. *)
Theorem hard_delete_admin_only st user bid :
  let out := AdminBookings.DELETE st user bid in
  (∀ id, is_Some (bookings st !! id) → bookings out.1 !! id = None →
     (∃ u, user = Some u ∧ Principal.role u = Role.admin) ∧
     truthy bid = Some id ∧ ¬ reviewed st id ∧ out.2 = Ok ()) ∧
  (∀ u id, user = Some u → Principal.role u = Role.admin →
     truthy bid = Some id → is_Some (bookings st !! id) → reviewed st id →
     fails_with InvalidOperation out.2 ∧ out.1 = st) ∧
  ((¬ ∃ u, user = Some u ∧ Principal.role u = Role.admin) →
   fails_with Forbidden out.2 ∧ out.1 = st) ∧
  (∀ (newDate : string → option Z) fresh now u id req1 req2 req3 k,
     is_Some (bookings st !! k) →
     is_Some (bookings (Bookings.POST newDate fresh now st u req1).1 !! k) ∧
     is_Some (bookings (BookingById.PUT now st u id req2).1 !! k) ∧
     is_Some (bookings (BookingById.DELETE now st u id).1 !! k) ∧
     is_Some (bookings (Reviews.POST fresh now st u req3).1 !! k)).
Proof.
  intros out. subst out. split_and!.
  - intros id Hid. unfold AdminBookings.DELETE.
    assert (Hkept : bookings st !! id = None → False).
    { intros Hgone. rewrite Hgone in Hid. by apply is_Some_None in Hid. }
    destruct user as [u|]; simpl; [|by intros ?%Hkept].
    case_decide as Hrole; simpl; [by intros ?%Hkept|].
    destruct (truthy bid) as [id'|] eqn:Hbid; simpl; [|by intros ?%Hkept].
    destruct (bookings st !! id') eqn:Hb; simpl; [|by intros ?%Hkept].
    destruct (findFirst _ _) eqn:Hrev; simpl; [by intros ?%Hkept|].
    intros Hgone.
    destruct (decide (id' = id)) as [->|Hne];
      [|rewrite lookup_delete_ne in Hgone by done; by apply Hkept in Hgone].
    split_and!; [|done| |done].
    + exists u. split; [done|].
      by destruct (decide (Principal.role u = Role.admin)).
    + intros Hr%review_query. rewrite Hrev in Hr. by apply is_Some_None in Hr.
  - intros u id -> Hadmin Hbid [b Hb] Hrev. unfold AdminBookings.DELETE.
    rewrite decide_False by (by intros ?). rewrite Hbid, Hb.
    apply review_query in Hrev as [r ->]. done.
  - intros Hnot. unfold AdminBookings.DELETE.
    destruct user as [u|]; [|done].
    rewrite decide_True; [done|]. intros Hrole. apply Hnot. eauto.
  - intros newDate fresh now u id req1 req2 req3 k Hk. split_and!.
    + by apply bookings_POST_keeps_rows.
    + by apply PUT_keeps_rows.
    + by apply cancel_keeps_rows.
    + by rewrite reviews_POST_bookings.
Qed.

(** ** One review per booking *)

(** C6, as the specification words it, does not hold: another caller than
    the booking's customer is refused with Forbidden before the existing
    review is looked for. *)
Lemma second_review_conflict_fails : ¬ second_review_conflict.
Proof.
  intros Hrule.
  assert (reviewed reviewed_store "B1") as Hrev.
  { exists "R1". eexists. split; reflexivity. }
  pose proof (Hrule "R2" 400 reviewed_store customer2
                (Reviews.mkRequest (Some "B1") (Some 5%Q) None) "B1"
                eq_refl Hrev) as Hkind.
  vm_compute in Hkind. discriminate Hkind.
Qed.

Lemma reviews_POST_reviews fresh now st u req :
  reviews (Reviews.POST fresh now st u req).1 = reviews st ∨
  ∃ bid r, truthy (Reviews.bookingId req) = Some bid ∧
           Review.bookingId r = bid ∧ ¬ reviewed st bid ∧
           reviews st !! fresh = None ∧
           reviews (Reviews.POST fresh now st u req).1
           = <[fresh := r]> (reviews st).
Proof.
  unfold Reviews.POST.
  destruct (truthy (Reviews.bookingId req)) as [bid|]; [|by left].
  repeat case_match; simpl; try (by left); right.
  all: match goal with
       | Hnone : findFirst _ _ = None |- _ =>
           assert (¬ reviewed st bid) as Hnew
             by (intros Hr%review_query; rewrite Hnone in Hr;
                 by apply is_Some_None in Hr)
       end.
  - match goal with
    | Hup : Reviews.updateServiceRating (set_reviews <[_ := ?r]> _) _ = _
      |- _ =>
        exists bid, r; apply updateServiceRating_tables in Hup as [_ ->]
    end.
    done.
  - match goal with
    | |- context [<[_ := ?r]> (reviews st)] => by exists bid, r
    end.
Qed.

(** C6, amended: once a review references a booking, every further
    submission for that booking fails and writes nothing, whoever calls and
    whatever the rating: with ValidationError, NotFound, Forbidden or
    InvalidOperation when an earlier check objects, with Conflict when the
    rating is in range and the booking is there, completed, and the
    caller's own.  Submissions keep the store at one review per booking at
    most. *)
Theorem second_review_refused fresh now st u req bid :
  truthy (Reviews.bookingId req) = Some bid →
  reviewed st bid →
  let out := Reviews.POST fresh now st u req in
  (fails_with ValidationError out.2 ∨ fails_with NotFound out.2 ∨
   fails_with Forbidden out.2 ∨ fails_with InvalidOperation out.2 ∨
   fails_with Conflict out.2) ∧
  out.1 = st ∧
  (∀ q b, Reviews.truthy_number (Reviews.rating req) = Some q →
          (1 <= q)%Q → (q <= 5)%Q →
          bookings st !! bid = Some b →
          Booking.userId b = Principal.userId u →
          Booking.status b = "completed" →
          fails_with Conflict out.2) ∧
  (∀ fresh2 now2 u2 req2,
     one_review_per_booking st →
     one_review_per_booking (Reviews.POST fresh2 now2 st u2 req2).1).
Proof.
  intros Hbid Hrev out. subst out.
  apply review_query in Hrev as Hfound. destruct Hfound as [r Hfound].
  split_and!.
  - unfold Reviews.POST. rewrite Hbid, Hfound.
    repeat case_match; simpl; tauto.
  - unfold Reviews.POST. rewrite Hbid, Hfound.
    repeat case_match; simpl; done.
  - intros q b Hq Hlo Hhi Hb Hown Hdone.
    unfold Reviews.POST. rewrite Hbid, Hq, Hb, Hfound.
    destruct (Qlt_le_dec q 1) as [Hlt|_];
      [by apply Qlt_not_le in Hlt|].
    destruct (Qlt_le_dec 5 q) as [Hlt|_];
      [by apply Qlt_not_le in Hlt|].
    rewrite decide_False by (by intros ?).
    by rewrite decide_False by (by intros ?).
  - intros fresh2 now2 u2 req2 Hone.
    destruct (reviews_POST_reviews fresh2 now2 st u2 req2)
      as [Heq|(bid2 & r2 & _ & Hr2 & Hnew & Hfresh & Heq)];
      unfold one_review_per_booking; rewrite Heq; [done|].
    intros k1 k2 x1 x2 H1 H2 Hsame.
    destruct (decide (fresh2 = k1)) as [<-|Hne1],
             (decide (fresh2 = k2)) as [<-|Hne2]; [done|..].
    + rewrite lookup_insert_eq in H1. rewrite lookup_insert_ne in H2 by done.
      destruct Hnew. exists k2, x2. split; [done|]. congruence.
    + rewrite lookup_insert_eq in H2. rewrite lookup_insert_ne in H1 by done.
      destruct Hnew. exists k1, x1. split; [done|]. congruence.
    + rewrite lookup_insert_ne in H1, H2 by done. eauto.
Qed.

Lemma second_review_refused_witness :
  fails_with Conflict
    (Reviews.POST "R2" 400 reviewed_store customer1
       (Reviews.mkRequest (Some "B1") (Some 4%Q) None)).2.
Proof.
  assert (reviewed reviewed_store "B1") as Hrev.
  { exists "R1". eexists. split; reflexivity. }
  destruct (second_review_refused "R2" 400 reviewed_store customer1
              (Reviews.mkRequest (Some "B1") (Some 4%Q) None) "B1"
              eq_refl Hrev) as (_ & _ & Hconflict & _).
  eapply (Hconflict 4%Q); [reflexivity|discriminate|discriminate|
                            reflexivity|reflexivity|reflexivity].
Defined.

(** ** The rating of a service *)

Lemma Math_round_nearest (x : Q) :
  (inject_Z (Qfloor (x + (1 # 2))) - (1 # 2) <= x)%Q ∧
  (x < inject_Z (Qfloor (x + (1 # 2))) + (1 # 2))%Q.
Proof.
  pose proof (Qfloor_le (x + (1 # 2))) as Hlo.
  pose proof (Qlt_floor (x + (1 # 2))) as Hhi.
  rewrite inject_Z_plus in Hhi. change (inject_Z 1) with 1%Q in Hhi.
  split; lra.
Qed.

Lemma round_one_decimal (q : Q) :
  rounded_to_one_decimal q (Reviews.Math_round (q * 10) / 10)%Q.
Proof.
  exists (Qfloor (q * 10 + (1 # 2))). split.
  - unfold Reviews.Math_round, Qeq, Qdiv, Qmult, Qinv, inject_Z. simpl. lia.
  - apply Math_round_nearest.
Qed.

Lemma updateServiceRating_spec st s st' :
  Reviews.updateServiceRating st s = Some st' →
  (0 < review_count st s)%nat →
  ∃ svc,
    services st !! s = Some svc ∧
    st' = set_services
            (insert s
               (with_rating
                  (Reviews.Math_round (mean_rating st s * 10) / 10)%Q
                  (review_count st s) svc)) st.
Proof.
  unfold Reviews.updateServiceRating, mean_rating, rating_total, review_count,
    linked_reviews.
  rewrite length_findMany, sum_findMany. intros Hup Hpos.
  rewrite decide_True in Hup by exact Hpos.
  destruct (services st !! s) as [svc|]; [|done].
  exists svc. split; [done|]. by injection Hup as <-.
Qed.

Lemma reviews_POST_Ok fresh now st u req rv :
  (Reviews.POST fresh now st u req).2 = Ok rv →
  ∃ b, bookings st !! Review.bookingId rv = Some b ∧
       Booking.serviceId b = Review.serviceId rv ∧
       Booking.userId b = Principal.userId u ∧
       Booking.status b = "completed" ∧
       Reviews.updateServiceRating (set_reviews (insert fresh rv) st)
         (Review.serviceId rv)
       = Some (Reviews.POST fresh now st u req).1.
Proof.
  unfold Reviews.POST. repeat case_match; simpl; try done.
  intros [= <-]. simpl.
  match goal with
  | Hb : bookings st !! _ = Some ?b |- _ =>
      exists b; split_and!; try done;
        [by destruct (decide (Booking.userId b = Principal.userId u))
        |by destruct (decide (Booking.status b = "completed"))]
  end.
Qed.

(** C5: after a successful SubmitReview for a booking of service [s], the
    service's [reviewCount] is the number of reviews linked to [s] and its
    [rating] is their mean rating rounded to one decimal place. *)
Theorem rating_consistency fresh now st u req rv :
  (Reviews.POST fresh now st u req).2 = Ok rv →
  let st' := (Reviews.POST fresh now st u req).1 in
  let s := Review.serviceId rv in
  (∃ b, bookings st !! Review.bookingId rv = Some b ∧
        Booking.serviceId b = s) ∧
  reviews st' !! fresh = Some rv ∧
  ∃ svc,
    services st' !! s = Some svc ∧
    Service.reviewCount svc = review_count st' s ∧
    rounded_to_one_decimal (mean_rating st' s) (Service.rating svc).
Proof.
  intros Hok st' s.
  destruct (reviews_POST_Ok _ _ _ _ _ _ Hok) as (b & Hb & Hs & _ & _ & Hup).
  fold st' s in Hup.
  set (st1 := set_reviews (insert fresh rv) st) in *.
  assert (reviews st1 !! fresh = Some rv) as Hrv
    by apply lookup_insert_eq.
  assert (0 < review_count st1 s)%nat as Hpos.
  { unfold review_count, linked_reviews.
    apply Nat.neq_0_lt_0, map_size_ne_0_lookup. exists fresh, rv.
    by apply map_lookup_filter_Some. }
  destruct (updateServiceRating_spec _ _ _ Hup Hpos) as (svc & Hsvc & Hst').
  assert (reviews st' = reviews st1) as Hsame by (by rewrite Hst').
  assert (review_count st' s = review_count st1 s) as Hcount
    by (unfold review_count, linked_reviews; by rewrite Hsame).
  assert (mean_rating st' s = mean_rating st1 s) as Hmean
    by (unfold mean_rating, rating_total, review_count, linked_reviews;
        by rewrite Hsame).
  split; [eauto|]. split; [by rewrite Hsame|].
  eexists. split.
  - rewrite Hst'. simpl. apply lookup_insert_eq.
  - simpl. rewrite Hcount, Hmean. split; [done|]. apply round_one_decimal.
Qed.

Lemma rating_consistency_witness :
  ∃ svc, services reviewed_store !! "S1" = Some svc ∧
         Service.reviewCount svc = 1%nat ∧
         (Service.rating svc == 4)%Q.
Proof.
  destruct (rating_consistency "R1" 300 completed_store customer1
              (Reviews.mkRequest (Some "B1") (Some 4%Q) None) _ eq_refl)
    as (_ & _ & svc & Hsvc & Hcount & _).
  exists svc. split; [exact Hsvc|].
  vm_compute in Hsvc. injection Hsvc as <-. split; reflexivity.
Defined.

(** ** Validation of the rating *)

(** C7 fails on a rating of four and a half for one's own completed
    booking: the range check lets it through and the call succeeds.  A
    review is created where there was none, with the whole part, 4, as its
    rating, and the rating and the review count of the service are
    written: the store is the one a rating of 4 leaves. *)
Lemma half_star_rating_unvalidated :
  let out :=
    Reviews.POST "R1" 300 completed_store customer1
      (Reviews.mkRequest (Some "B1") (Some (9 # 2)%Q) None) in
  ¬ fails_with ValidationError out.2 ∧
  reviews completed_store = ∅ ∧
  out.1 = reviewed_store ∧
  ∃ rv svc,
    out.2 = Ok rv ∧ Review.rating rv = 4 ∧
    reviews out.1 !! "R1" = Some rv ∧
    services out.1 !! "S1" = Some svc ∧
    (Service.rating svc == 4)%Q ∧ Service.reviewCount svc = 1%nat.
Proof.
  split_and!; [by vm_compute|reflexivity|reflexivity|].
  eexists _, _. split_and!; reflexivity.
Qed.

(** The range is all the handler checks of a rating: one between 1 and 5,
    whole or not, never meets a validation error. *)
Lemma rating_in_range_passes_validation fresh now st u req bid q :
  truthy (Reviews.bookingId req) = Some bid →
  Reviews.truthy_number (Reviews.rating req) = Some q →
  (1 <= q)%Q → (q <= 5)%Q →
  ¬ fails_with ValidationError (Reviews.POST fresh now st u req).2.
Proof.
  intros Hbid Hq Hlo Hhi. unfold Reviews.POST. rewrite Hbid, Hq.
  destruct (Qlt_le_dec q 1) as [Hlt|_]; [by apply Qlt_not_le in Hlt|].
  destruct (Qlt_le_dec 5 q) as [Hlt|_]; [by apply Qlt_not_le in Hlt|].
  repeat case_match; simpl; intros Hkind; done.
Qed.

(** ** The scenarios of the specification *)

(** Scenario A: the first booking of the slot is pending at a price of 50,
    the second one for the same instant meets a conflict. *)
Example scenario_A :
  (∃ b, (Bookings.POST demo_newDate "B1" 100 demo_store customer1
           demo_request).2 = Ok b ∧
        Booking.status b = "pending" ∧ Booking.totalPrice b = 50%Q) ∧
  (Bookings.POST demo_newDate "B2" 150 booked customer1 demo_request).2
  = Fail Bookings.slot_taken.
Proof. split; [eexists; split_and!; reflexivity|reflexivity]. Qed.

(** Scenario B: the provider takes the booking through [confirmed],
    [in_progress] and [completed]; the customer's four stars make the
    service's rating 4.0 with one review; a second review meets a
    conflict. *)
Example scenario_B :
  let step target st :=
    (BookingById.PUT 200 st provider1 "B1"
       (BookingById.mkRequest (Some target) None)).1 in
  step "completed" (step "in_progress" (step "confirmed" booked))
  = completed_store ∧
  (∃ svc, services reviewed_store !! "S1" = Some svc ∧
          Service.rating svc = (40 # 10)%Q ∧
          Service.reviewCount svc = 1%nat) ∧
  (Reviews.POST "R2" 400 reviewed_store customer1
     (Reviews.mkRequest (Some "B1") (Some 4%Q) None)).2
  = Fail Reviews.already_reviewed.
Proof.
  split_and!; [reflexivity| |reflexivity].
  eexists. split_and!; reflexivity.
Qed.

(** Scenario C: the customer may not confirm. *)
Example scenario_C :
  BookingById.PUT 200 booked customer1 "B1"
    (BookingById.mkRequest (Some "confirmed") None)
  = (booked, Fail BookingById.invalid_transition).
Proof. reflexivity. Qed.

(** ** What each handler writes *)

Lemma bookings_POST_effect (newDate : string → option Z) fresh now st u req :
  (∃ f, Bookings.POST newDate fresh now st u req = (st, Fail f)) ∨
  ∃ sid d t svc,
    truthy (Bookings.serviceId req) = Some sid ∧
    truthy (Bookings.date req) = Some d ∧
    newDate d = Some t ∧
    services st !! sid = Some svc ∧
    Service.isActive svc = true ∧
    Service.providerId svc ≠ Principal.userId u ∧
    ¬ slot_occupied st sid t ∧
    bookings st !! fresh = None ∧
    let b := Booking.mk fresh (Principal.userId u) (Service.providerId svc)
               sid t "pending" (Bookings.notes req) (Service.price svc)
               "pending" now now in
    Bookings.POST newDate fresh now st u req
    = (set_bookings (insert fresh b) st, Ok b).
Proof.
  unfold Bookings.POST.
  destruct (truthy (Bookings.serviceId req)) as [sid|]; [|eauto].
  destruct (truthy (Bookings.date req)) as [d|]; [|eauto].
  destruct (services st !! sid) as [svc|] eqn:Hsvc; [|eauto].
  destruct (Service.isActive svc) eqn:Hact; simpl; [|eauto].
  destruct (decide (_ = _)) as [|Hother]; [eauto|].
  destruct (newDate d) as [t|] eqn:Ht; [|eauto].
  destruct (findFirst _ _) as [c|] eqn:Hfree; [eauto|].
  destruct (bookings st !! fresh) eqn:Hfresh; [eauto|].
  right. exists sid, d, t, svc. split_and!; try done.
  intros Hocc%conflict_query. rewrite Hfree in Hocc.
  by apply is_Some_None in Hocc.
Qed.

Lemma PUT_effect now st u id req :
  (∃ f, BookingById.PUT now st u id req = (st, Fail f)) ∨
  ∃ b, bookings st !! id = Some b ∧
       (Principal.role u = Role.user →
        Booking.userId b = Principal.userId u) ∧
       (Principal.role u = Role.provider →
        Booking.providerId b = Principal.userId u) ∧
       BookingById.refused (Principal.role u) req = false ∧
       let b' := touch now (BookingById.updateData req b) in
       BookingById.PUT now st u id req
       = (set_bookings (insert id b') st, Ok b').
Proof.
  unfold BookingById.PUT.
  destruct (bookings st !! id) as [b|]; [|eauto].
  destruct (decide (_ ∧ _)) as [|Hcust]; [eauto|].
  destruct (decide (_ ∧ _)) as [|Hprov]; [eauto|].
  destruct (BookingById.refused _ _) eqn:Href; [eauto|].
  right. exists b. split_and!; try done.
  - intros Hr. destruct (decide (Booking.userId b = Principal.userId u));
      [done|]. destruct Hcust. done.
  - intros Hr. destruct (decide (Booking.providerId b = Principal.userId u));
      [done|]. destruct Hprov. done.
Qed.

Lemma cancel_effect now st u id :
  (∃ f, BookingById.DELETE now st u id = (st, Fail f)) ∨
  ∃ b, bookings st !! id = Some b ∧
       Booking.status b ≠ "completed" ∧ Booking.status b ≠ "cancelled" ∧
       (Booking.userId b = Principal.userId u ∨
        Booking.providerId b = Principal.userId u ∨
        Principal.role u = Role.admin) ∧
       BookingById.DELETE now st u id
       = (set_bookings (insert id (touch now (with_status "cancelled" b))) st,
          Ok ()).
Proof.
  unfold BookingById.DELETE.
  destruct (bookings st !! id) as [b|]; [|eauto].
  destruct (decide (_ ∨ _)) as [|Hlive]; [eauto|].
  destruct (decide (_ ∧ _)) as [|Hmay]; [eauto|].
  right. exists b. split_and!; try done.
  - intros Hs. apply Hlive. by left.
  - intros Hs. apply Hlive. by right.
  - destruct (decide (Booking.userId b = Principal.userId u)); [by left|].
    destruct (decide (Booking.providerId b = Principal.userId u));
      [by right; left|].
    destruct (decide (Principal.role u = Role.admin)); [by right; right|].
    by destruct Hmay.
Qed.

Lemma admin_DELETE_effect st user bid :
  (∃ f, AdminBookings.DELETE st user bid = (st, Fail f)) ∨
  ∃ id, truthy bid = Some id ∧ is_Some (bookings st !! id) ∧
        ¬ reviewed st id ∧
        AdminBookings.DELETE st user bid
        = (set_bookings (delete id) st, Ok ()).
Proof.
  unfold AdminBookings.DELETE.
  destruct user as [u|]; [|eauto].
  destruct (decide _); [eauto|].
  destruct (truthy bid) as [id|]; [|eauto].
  destruct (bookings st !! id) as [b|] eqn:Hb; [|eauto].
  destruct (findFirst _ _) eqn:Hrev; [eauto|].
  right. exists id. split_and!; try done.
  intros Hr%review_query. rewrite Hrev in Hr. by apply is_Some_None in Hr.
Qed.

Lemma reviews_POST_effect fresh now st u req :
  (∃ f, Reviews.POST fresh now st u req = (st, Fail f)) ∨
  ∃ bid q stars b,
    truthy (Reviews.bookingId req) = Some bid ∧
    Reviews.truthy_number (Reviews.rating req) = Some q ∧
    (1 <= q)%Q ∧ (q <= 5)%Q ∧ Reviews.as_Int q = stars ∧
    bookings st !! bid = Some b ∧
    Booking.userId b = Principal.userId u ∧
    Booking.status b = "completed" ∧
    ¬ reviewed st bid ∧
    reviews st !! fresh = None ∧
    let rv := Review.mk fresh (Principal.userId u) (Booking.serviceId b)
                (Booking.providerId b) bid stars (Reviews.comment req) now in
    let st1 := set_reviews (insert fresh rv) st in
    match Reviews.updateServiceRating st1 (Booking.serviceId b) with
    | None => Reviews.POST fresh now st u req = (st1, Fail internal_error)
    | Some st2 => Reviews.POST fresh now st u req = (st2, Ok rv)
    end.
Proof.
  unfold Reviews.POST.
  destruct (truthy (Reviews.bookingId req)) as [bid|]; [|eauto].
  destruct (Reviews.truthy_number _) as [q|]; [|eauto].
  destruct (Qlt_le_dec q 1) as [|Hlo]; [eauto|].
  destruct (Qlt_le_dec 5 q) as [|Hhi]; [eauto|].
  destruct (bookings st !! bid) as [b|] eqn:Hb; [|eauto].
  destruct (decide (Booking.userId b ≠ _)) as [|Hown]; [eauto|].
  destruct (decide (Booking.status b ≠ _)) as [|Hdone]; [eauto|].
  destruct (findFirst _ _) eqn:Hrev; [eauto|].
  destruct (reviews st !! fresh) eqn:Hfresh; [eauto|].
  right. exists bid, q, (Reviews.as_Int q), b. split_and!; try done.
  - by destruct (decide (Booking.userId b = Principal.userId u)).
  - by destruct (decide (Booking.status b = "completed")).
  - intros Hr%review_query. rewrite Hrev in Hr. by apply is_Some_None in Hr.
  - simpl. by destruct (Reviews.updateServiceRating _ _).
Qed.

(** ** One active booking per slot *)

Lemma bookings_POST_keeps_slots (newDate : string → option Z) fresh now st u
    req :
  active_slots_unique st →
  active_slots_unique (Bookings.POST newDate fresh now st u req).1.
Proof.
  intros Hinv.
  destruct (bookings_POST_effect newDate fresh now st u req)
    as [[f ->]|(sid & d & t & svc & _ & _ & _ & _ & _ & _ & Hfree & Hfresh
                & ->)];
    [done|].
  intros k1 k2 b1 b2. simpl.
  destruct (decide (fresh = k1)) as [<-|Hk1],
           (decide (fresh = k2)) as [<-|Hk2];
    rewrite ?lookup_insert_eq, ?lookup_insert_ne by done.
  - done.
  - intros [= <-] H2 _ Hact Hsid Hdate. simpl in *.
    destruct Hfree. exists k2, b2. by rewrite <- Hsid, <- Hdate.
  - intros H1 [= <-] Hact _ Hsid Hdate. simpl in *.
    destruct Hfree. exists k1, b1. by rewrite Hsid, Hdate.
  - apply Hinv.
Qed.

Lemma cancelled_not_active b : ¬ active (with_status "cancelled" b).
Proof.
  unfold active. simpl. rewrite !elem_of_cons, elem_of_nil.
  intros [|[|[|[]]]]; discriminate.
Qed.

Lemma cancel_keeps_slots now st u id :
  active_slots_unique st →
  active_slots_unique (BookingById.DELETE now st u id).1.
Proof.
  intros Hinv.
  destruct (cancel_effect now st u id) as [[f ->]|(b & _ & _ & _ & _ & ->)];
    [done|].
  intros k1 k2 b1 b2. simpl.
  destruct (decide (id = k1)) as [<-|Hk1],
           (decide (id = k2)) as [<-|Hk2];
    rewrite ?lookup_insert_eq, ?lookup_insert_ne by done.
  - done.
  - intros [= <-] _ Hact. by apply cancelled_not_active in Hact.
  - intros _ [= <-] _ Hact. by apply cancelled_not_active in Hact.
  - apply Hinv.
Qed.

Lemma admin_DELETE_keeps_slots st user bid :
  active_slots_unique st →
  active_slots_unique (AdminBookings.DELETE st user bid).1.
Proof.
  intros Hinv.
  destruct (admin_DELETE_effect st user bid) as [[f ->]|(id & _ & _ & _ & ->)];
    [done|].
  intros k1 k2 b1 b2. simpl.
  intros [_ H1]%lookup_delete_Some [_ H2]%lookup_delete_Some.
  by apply Hinv.
Qed.

Lemma reviews_POST_keeps_slots fresh now st u req :
  active_slots_unique st →
  active_slots_unique (Reviews.POST fresh now st u req).1.
Proof.
  intros Hinv k1 k2 b1 b2. rewrite reviews_POST_bookings. apply Hinv.
Qed.

(** Creating, cancelling and deleting bookings and submitting reviews keep
    the store at one active booking per service and instant.  A status
    update does not: it brings a cancelled booking back into a slot that
    has been booked again. *)
Theorem active_slot_invariant st :
  active_slots_unique st →
  (∀ (newDate : string → option Z) fresh now u req,
     active_slots_unique (Bookings.POST newDate fresh now st u req).1) ∧
  (∀ now u id, active_slots_unique (BookingById.DELETE now st u id).1) ∧
  (∀ user bid, active_slots_unique (AdminBookings.DELETE st user bid).1) ∧
  (∀ fresh now u req,
     active_slots_unique (Reviews.POST fresh now st u req).1) ∧
  (∃ st0 now u id req,
     active_slots_unique st0 ∧
     ¬ active_slots_unique (BookingById.PUT now st0 u id req).1).
Proof.
  intros Hinv. split_and!.
  - intros. by apply bookings_POST_keeps_slots.
  - intros. by apply cancel_keeps_slots.
  - intros. by apply admin_DELETE_keeps_slots.
  - intros. by apply reviews_POST_keeps_slots.
  - exists rebooked_store, 600, provider1, "B1",
      (BookingById.mkRequest (Some "confirmed") None).
    split.
    + apply bookings_POST_keeps_slots, cancel_keeps_slots,
        bookings_POST_keeps_slots.
      intros k1 k2 b1 b2 H1. simpl in H1. by rewrite lookup_empty in H1.
    + intros Hinv2.
      assert ("B1" = "B2") as Heq; [|discriminate Heq].
      eapply (Hinv2 "B1" "B2"); try reflexivity;
        unfold active; rewrite !elem_of_cons; simpl; tauto.
Qed.

Lemma active_slot_invariant_witness : active_slots_unique booked.
Proof.
  assert (active_slots_unique demo_store) as Hempty.
  { intros k1 k2 b1 b2 H1. simpl in H1. by rewrite lookup_empty in H1. }
  destruct (active_slot_invariant demo_store Hempty) as [Hpost _].
  exact (Hpost demo_newDate "B1" 100 customer1 demo_request).
Defined.

(** ** Who a booking and a review belong to *)

Lemma as_Int_range q stars :
  Reviews.as_Int q = stars → (1 <= q)%Q → (q <= 5)%Q → 1 ≤ stars ≤ 5.
Proof.
  unfold Reviews.as_Int. intros <- Hlo Hhi. split.
  - change 1 with (Qfloor (inject_Z 1)). by apply Qfloor_resp_le.
  - change 5 with (Qfloor (inject_Z 5)). by apply Qfloor_resp_le.
Qed.

Lemma reviews_POST_written fresh now st u req :
  reviews (Reviews.POST fresh now st u req).1 = reviews st ∨
  ∃ b rv,
    bookings st !! Review.bookingId rv = Some b ∧
    Booking.userId b = Review.userId rv ∧
    Review.userId rv = Principal.userId u ∧
    Booking.serviceId b = Review.serviceId rv ∧
    Booking.providerId b = Review.providerId rv ∧
    1 ≤ Review.rating rv ≤ 5 ∧
    ¬ reviewed st (Review.bookingId rv) ∧
    reviews st !! fresh = None ∧
    reviews (Reviews.POST fresh now st u req).1
    = <[fresh := rv]> (reviews st).
Proof.
  destruct (reviews_POST_effect fresh now st u req)
    as [[f ->]|(bid & q & stars & b & _ & _ & Hlo & Hhi & Hint & Hb & Hown
                & _ & Hnew & Hfresh & Hout)];
    [by left|].
  right.
  exists b, (Review.mk fresh (Principal.userId u) (Booking.serviceId b)
               (Booking.providerId b) bid stars (Reviews.comment req) now).
  simpl in *. split_and!; try done; try by eapply as_Int_range.
  destruct (Reviews.updateServiceRating _ _) as [st2|] eqn:Hup;
    rewrite Hout; simpl; [|done].
  by apply updateServiceRating_tables in Hup as [_ ->].
Qed.

Lemma updateData_parties req b :
  Booking.userId (BookingById.updateData req b) = Booking.userId b ∧
  Booking.providerId (BookingById.updateData req b) = Booking.providerId b.
Proof. unfold BookingById.updateData. by repeat case_match. Qed.

(** Five operations keep the store free of bookings of a provider with
    themselves: creating a booking, the status update and the cancellation
    of the booking's own route, the admin's delete and the submission of a
    review.  A booking is created only for somebody else's service, and
    the other four write neither party of a booking.  The admin's PATCH is
    not one of the five. *)
Theorem self_booking_never_stored st :
  no_self_booking st →
  (∀ (newDate : string → option Z) fresh now u req,
     no_self_booking (Bookings.POST newDate fresh now st u req).1) ∧
  (∀ now u id req, no_self_booking (BookingById.PUT now st u id req).1) ∧
  (∀ now u id, no_self_booking (BookingById.DELETE now st u id).1) ∧
  (∀ user bid, no_self_booking (AdminBookings.DELETE st user bid).1) ∧
  (∀ fresh now u req, no_self_booking (Reviews.POST fresh now st u req).1).
Proof.
  intros Hinv. split_and!.
  - intros newDate fresh now u req.
    destruct (bookings_POST_effect newDate fresh now st u req)
      as [[f ->]|(sid & d & t & svc & _ & _ & _ & _ & _ & Hother & _ & _
                  & ->)];
      [done|].
    intros k b. simpl. destruct (decide (fresh = k)) as [<-|Hk].
    + rewrite lookup_insert_eq. intros [= <-]. simpl. congruence.
    + rewrite lookup_insert_ne by done. apply Hinv.
  - intros now u id req.
    destruct (PUT_effect now st u id req) as [[f ->]|(b & Hb & _ & _ & _ & ->)];
      [done|].
    intros k b'. simpl. destruct (decide (id = k)) as [<-|Hk].
    + rewrite lookup_insert_eq. intros [= <-]. simpl.
      destruct (updateData_parties req b) as [-> ->]. by eapply Hinv.
    + rewrite lookup_insert_ne by done. apply Hinv.
  - intros now u id.
    destruct (cancel_effect now st u id) as [[f ->]|(b & Hb & _ & _ & _ & ->)];
      [done|].
    intros k b'. simpl. destruct (decide (id = k)) as [<-|Hk].
    + rewrite lookup_insert_eq. intros [= <-]. simpl. by eapply Hinv.
    + rewrite lookup_insert_ne by done. apply Hinv.
  - intros user bid.
    destruct (admin_DELETE_effect st user bid)
      as [[f ->]|(id & _ & _ & _ & ->)];
      [done|].
    intros k b. simpl. intros [_ Hk]%lookup_delete_Some. by eapply Hinv.
  - intros fresh now u req k b. rewrite reviews_POST_bookings. apply Hinv.
Qed.

Lemma self_booking_never_stored_witness : no_self_booking booked.
Proof.
  assert (no_self_booking demo_store) as Hempty.
  { intros k b Hk. simpl in Hk. by rewrite lookup_empty in Hk. }
  destruct (self_booking_never_stored demo_store Hempty) as [Hpost _].
  exact (Hpost demo_newDate "B1" 100 customer1 demo_request).
Defined.

(** Every review keeps a booking behind it, with the same customer, service
    and provider: a review is written for the caller's own booking, updates
    and cancellations leave the parties alone, and the admin route deletes
    no booking that a review references. *)
Theorem reviews_keep_their_booking st :
  reviews_match_bookings st →
  (∀ (newDate : string → option Z) fresh now u req,
     reviews_match_bookings (Bookings.POST newDate fresh now st u req).1) ∧
  (∀ now u id req,
     reviews_match_bookings (BookingById.PUT now st u id req).1) ∧
  (∀ now u id, reviews_match_bookings (BookingById.DELETE now st u id).1) ∧
  (∀ user bid,
     reviews_match_bookings (AdminBookings.DELETE st user bid).1) ∧
  (∀ fresh now u req,
     reviews_match_bookings (Reviews.POST fresh now st u req).1).
Proof.
  intros Hinv. split_and!.
  - intros newDate fresh now u req.
    destruct (bookings_POST_effect newDate fresh now st u req)
      as [[f ->]|(sid & d & t & svc & _ & _ & _ & _ & _ & _ & _ & Hfresh
                  & ->)];
      [done|].
    intros k r Hr. simpl in *.
    destruct (Hinv k r Hr) as (b & Hb & Hparties). exists b.
    split; [|done]. rewrite lookup_insert_ne; [done|]. congruence.
  - intros now u id req.
    destruct (PUT_effect now st u id req) as [[f ->]|(b & Hb & _ & _ & _ & ->)];
      [done|].
    intros k r Hr. simpl in *.
    destruct (Hinv k r Hr) as (b0 & Hb0 & Hu & Hs & Hp).
    destruct (decide (id = Review.bookingId r)) as [Heq|Hk].
    + rewrite <- Heq in *. rewrite lookup_insert_eq. eexists. split; [done|]. simpl.
      rewrite updateData_serviceId.
      destruct (updateData_parties req b) as [Hu' Hp']. rewrite Hu', Hp'.
      assert (b0 = b) as -> by congruence. done.
    + rewrite lookup_insert_ne by done. eauto.
  - intros now u id.
    destruct (cancel_effect now st u id) as [[f ->]|(b & Hb & _ & _ & _ & ->)];
      [done|].
    intros k r Hr. simpl in *.
    destruct (Hinv k r Hr) as (b0 & Hb0 & Hu & Hs & Hp).
    destruct (decide (id = Review.bookingId r)) as [Heq|Hk].
    + rewrite <- Heq in *. rewrite lookup_insert_eq. eexists. split; [done|]. simpl.
      assert (b0 = b) as -> by congruence. done.
    + rewrite lookup_insert_ne by done. eauto.
  - intros user bid.
    destruct (admin_DELETE_effect st user bid)
      as [[f ->]|(id & _ & _ & Hnew & ->)];
      [done|].
    intros k r Hr. simpl in *.
    destruct (Hinv k r Hr) as (b & Hb & Hparties). exists b.
    split; [|done]. rewrite lookup_delete_ne; [done|].
    intros ->. apply Hnew. by exists k, r.
  - intros fresh now u req k r. rewrite reviews_POST_bookings.
    destruct (reviews_POST_written fresh now st u req)
      as [->|(b & rv & Hb & Hu & _ & Hs & Hp & _ & _ & _ & ->)];
      [apply Hinv|].
    destruct (decide (fresh = k)) as [<-|Hk].
    + rewrite lookup_insert_eq. intros [= <-]. eauto.
    + rewrite lookup_insert_ne by done. apply Hinv.
Qed.

Lemma reviews_keep_their_booking_witness :
  reviews_match_bookings reviewed_store.
Proof.
  assert (reviews_match_bookings completed_store) as Hempty.
  { intros k r Hk. vm_compute in Hk. discriminate Hk. }
  destruct (reviews_keep_their_booking completed_store Hempty)
    as (_ & _ & _ & _ & Hreview).
  exact (Hreview "R1" 300 customer1
           (Reviews.mkRequest (Some "B1") (Some 4%Q) None)).
Defined.

(** ** The cached rating *)

Lemma linked_reviews_insert_other st fresh rv s :
  reviews st !! fresh = None →
  Review.serviceId rv ≠ s →
  linked_reviews (set_reviews (insert fresh rv) st) s = linked_reviews st s.
Proof.
  intros Hfresh Hne. unfold linked_reviews. simpl.
  rewrite map_filter_insert_not'; [done|done|].
  intros y Hy. congruence.
Qed.

Lemma rating_cache_ext st st' :
  services st' = services st → reviews st' = reviews st →
  rating_cache_consistent st → rating_cache_consistent st'.
Proof.
  intros Hs Hr Hinv s svc.
  assert (linked_reviews st' s = linked_reviews st s) as Hl
    by (unfold linked_reviews; by rewrite Hr).
  unfold mean_rating, rating_total, review_count. rewrite Hs, Hl.
  apply Hinv.
Qed.

Lemma reviews_POST_keeps_cache fresh now st u req :
  rating_cache_consistent st →
  rating_cache_consistent (Reviews.POST fresh now st u req).1.
Proof.
  intros Hinv.
  destruct (reviews_POST_effect fresh now st u req)
    as [[f ->]|(bid & q & stars & b & _ & _ & _ & _ & _ & Hb & _ & _ & _
                & Hfresh & Hout)];
    [done|].
  simpl in Hout.
  set (rv := Review.mk fresh (Principal.userId u) (Booking.serviceId b)
               (Booking.providerId b) bid stars (Reviews.comment req) now)
    in *.
  set (st1 := set_reviews (insert fresh rv) st) in *.
  assert (Hother : ∀ s svc, s ≠ Booking.serviceId b →
    services st !! s = Some svc → (0 < review_count st1 s)%nat →
    Service.reviewCount svc = review_count st1 s ∧
    rounded_to_one_decimal (mean_rating st1 s) (Service.rating svc)).
  { intros s svc Hs Hsvc.
    unfold mean_rating, rating_total, review_count, st1.
    rewrite (linked_reviews_insert_other st fresh rv s Hfresh)
      by (simpl; congruence).
    intros Hpos. exact (Hinv s svc Hsvc Hpos). }
  assert (0 < review_count st1 (Booking.serviceId b))%nat as Hpos.
  { unfold review_count, linked_reviews.
    apply Nat.neq_0_lt_0, map_size_ne_0_lookup. exists fresh, rv.
    apply map_lookup_filter_Some. split; [apply lookup_insert_eq|done]. }
  destruct (Reviews.updateServiceRating st1 _) as [st2|] eqn:Hup;
    rewrite Hout; simpl.
  - destruct (updateServiceRating_spec _ _ _ Hup Hpos) as (svc0 & Hsvc0 & ->).
    intros s svc. simpl.
    destruct (decide (Booking.serviceId b = s)) as [<-|Hs].
    + rewrite lookup_insert_eq. intros [= <-] _. simpl.
      split; [done|]. apply round_one_decimal.
    + rewrite lookup_insert_ne by done. intros Hsvc. by apply Hother.
  - intros s svc Hsvc. apply Hother; [|done].
    intros ->. unfold Reviews.updateServiceRating in Hup.
    rewrite Hsvc in Hup. by case_decide.
Qed.

(** The cached rating is an invariant: once every service that has reviews
    carries their number and their rounded mean, it does so after every
    booking, update, cancellation, deletion and review, for all services
    at once. *)
Theorem rating_cache_invariant st :
  rating_cache_consistent st →
  (∀ (newDate : string → option Z) fresh now u req,
     rating_cache_consistent (Bookings.POST newDate fresh now st u req).1) ∧
  (∀ now u id req,
     rating_cache_consistent (BookingById.PUT now st u id req).1) ∧
  (∀ now u id, rating_cache_consistent (BookingById.DELETE now st u id).1) ∧
  (∀ user bid,
     rating_cache_consistent (AdminBookings.DELETE st user bid).1) ∧
  (∀ fresh now u req,
     rating_cache_consistent (Reviews.POST fresh now st u req).1).
Proof.
  intros Hinv. split_and!.
  - intros newDate fresh now u req.
    destruct (bookings_POST_effect newDate fresh now st u req)
      as [[f ->]|(sid & d & t & svc & _ & _ & _ & _ & _ & _ & _ & _ & ->)];
      [done|by eapply rating_cache_ext].
  - intros now u id req.
    destruct (PUT_effect now st u id req) as [[f ->]|(b & _ & _ & _ & _ & ->)];
      [done|by eapply rating_cache_ext].
  - intros now u id.
    destruct (cancel_effect now st u id) as [[f ->]|(b & _ & _ & _ & _ & ->)];
      [done|by eapply rating_cache_ext].
  - intros user bid.
    destruct (admin_DELETE_effect st user bid)
      as [[f ->]|(id & _ & _ & _ & ->)];
      [done|by eapply rating_cache_ext].
  - intros. by apply reviews_POST_keeps_cache.
Qed.

Lemma rating_cache_invariant_witness : rating_cache_consistent reviewed_store.
Proof.
  assert (rating_cache_consistent completed_store) as Hnone.
  { intros s svc _ Hpos. vm_compute in Hpos. lia. }
  destruct (rating_cache_invariant completed_store Hnone)
    as (_ & _ & _ & _ & Hreview).
  exact (Hreview "R1" 300 customer1
           (Reviews.mkRequest (Some "B1") (Some 4%Q) None)).
Defined.

(** ** Ratings between one and five *)

Lemma sum_of_ratings_bounds (l : list Review.t) :
  (∀ r, r ∈ l → 1 ≤ Review.rating r ≤ 5) →
  Z.of_nat (length l)
  ≤ foldl (λ sum review, sum + Review.rating review) 0 l
  ≤ 5 * Z.of_nat (length l).
Proof.
  rewrite foldl_sum, Z.add_0_l.
  induction l as [|r l IH]; intros Hall; simpl length; simpl foldr; [lia|].
  pose proof (Hall r (list_elem_of_here _ _)) as Hr.
  assert (∀ r', r' ∈ l → 1 ≤ Review.rating r' ≤ 5) as Hl
    by (intros r' Hin; apply Hall; by right).
  specialize (IH Hl). lia.
Qed.

Lemma rating_total_bounds st s :
  ratings_in_range st →
  Z.of_nat (review_count st s) ≤ rating_total st s
  ≤ 5 * Z.of_nat (review_count st s).
Proof.
  intros Hinv. unfold rating_total, review_count, linked_reviews.
  pose proof (sum_findMany (λ r, Review.serviceId r = s) Review.rating
                (reviews st)) as Hsum.
  pose proof (length_findMany (λ r, Review.serviceId r = s) (reviews st))
    as Hlen.
  simpl in Hsum, Hlen. rewrite <- Hsum, <- Hlen.
  apply sum_of_ratings_bounds. intros r [_ [k Hk]]%elem_of_findMany.
  by eapply Hinv.
Qed.

Lemma mean_bounds (total count : Z) :
  0 < count → count ≤ total ≤ 5 * count →
  (1 <= inject_Z total / inject_Z count)%Q ∧
  (inject_Z total / inject_Z count <= 5)%Q.
Proof.
  intros Hpos [Hlo Hhi].
  assert (0 < inject_Z count)%Q as Hc
    by (change 0%Q with (inject_Z 0); by rewrite <- Zlt_Qlt).
  split.
  - apply Qle_shift_div_l; [done|]. rewrite Qmult_1_l.
    by rewrite <- Zle_Qle.
  - apply Qle_shift_div_r; [done|].
    change 5%Q with (inject_Z 5). rewrite <- inject_Z_mult.
    by rewrite <- Zle_Qle.
Qed.

Lemma rounded_rating_bounds (q : Q) :
  (1 <= q)%Q → (q <= 5)%Q →
  (1 <= Reviews.Math_round (q * 10) / 10)%Q ∧
  (Reviews.Math_round (q * 10) / 10 <= 5)%Q.
Proof.
  intros Hlo Hhi. unfold Reviews.Math_round.
  assert (10 ≤ Qfloor (q * 10 + (1 # 2)) ≤ 50) as [Hk1 Hk2].
  { assert (Qfloor (10 + (1 # 2)) ≤ Qfloor (q * 10 + (1 # 2))) as H1
      by (apply Qfloor_resp_le; lra).
    assert (Qfloor (q * 10 + (1 # 2)) ≤ Qfloor (50 + (1 # 2))) as H2
      by (apply Qfloor_resp_le; lra).
    split; [exact H1|exact H2]. }
  rewrite Zle_Qle in Hk1, Hk2.
  change (inject_Z 10) with 10%Q in Hk1.
  change (inject_Z 50) with 50%Q in Hk2.
  split.
  - apply Qle_shift_div_l; [reflexivity|]. lra.
  - apply Qle_shift_div_r; [reflexivity|]. lra.
Qed.

(** Every rating a review stores is a whole number from one to five, and
    with only such ratings in the store the rating a successful review
    leaves on its service lies between one and five as well. *)
Theorem stored_ratings_in_range st fresh now u req :
  ratings_in_range st →
  let out := Reviews.POST fresh now st u req in
  ratings_in_range out.1 ∧
  ∀ rv, out.2 = Ok rv →
    1 ≤ Review.rating rv ≤ 5 ∧
    ∃ svc, services out.1 !! Review.serviceId rv = Some svc ∧
           (1 <= Service.rating svc)%Q ∧ (Service.rating svc <= 5)%Q.
Proof.
  intros Hinv out.
  assert (ratings_in_range out.1) as Hinv'.
  { subst out.
    destruct (reviews_POST_written fresh now st u req)
      as [Heq|(b & rv & _ & _ & _ & _ & _ & Hrange & _ & _ & Heq)];
      intros k r; rewrite Heq; [apply Hinv|].
    destruct (decide (fresh = k)) as [<-|Hk].
    - rewrite lookup_insert_eq. by intros [= <-].
    - rewrite lookup_insert_ne by done. apply Hinv. }
  split; [done|]. intros rv Hok. subst out.
  destruct (reviews_POST_Ok _ _ _ _ _ _ Hok) as (b & Hb & Hs & _ & _ & Hup).
  set (st1 := set_reviews (insert fresh rv) st) in *.
  set (st' := (Reviews.POST fresh now st u req).1) in *.
  assert (0 < review_count st1 (Review.serviceId rv))%nat as Hpos.
  { unfold review_count, linked_reviews.
    apply Nat.neq_0_lt_0, map_size_ne_0_lookup. exists fresh, rv.
    apply map_lookup_filter_Some. split; [apply lookup_insert_eq|done]. }
  destruct (updateServiceRating_spec _ _ _ Hup Hpos) as (svc & Hsvc & Hst').
  assert (reviews st' = reviews st1) as Hsame by (by rewrite Hst').
  assert (ratings_in_range st1) as Hinv1
    by (intros k r; rewrite <- Hsame; apply Hinv').
  split.
  - apply (Hinv1 fresh rv). apply lookup_insert_eq.
  - eexists. split; [rewrite Hst'; simpl; apply lookup_insert_eq|]. simpl.
    apply rounded_rating_bounds; apply mean_bounds;
      try (apply rating_total_bounds; exact Hinv1); lia.
Qed.

Lemma stored_ratings_in_range_witness : ratings_in_range reviewed_store.
Proof.
  assert (ratings_in_range completed_store) as Hnone.
  { intros k r Hk. vm_compute in Hk. discriminate Hk. }
  exact (proj1 (stored_ratings_in_range completed_store "R1" 300 customer1
                  (Reviews.mkRequest (Some "B1") (Some 4%Q) None) Hnone)).
Defined.

(** ** Booking, cancelling and booking again *)

(** In the store that the creation of a booking leaves, before anything
    else is done to it, whoever asks for the same service at the same
    instant, the provider apart, meets a conflict, and nothing is
    written. *)
Theorem second_booking_of_slot_conflicts (newDate : string → option Z) fresh
    now st u req b :
  (Bookings.POST newDate fresh now st u req).2 = Ok b →
  let st' := (Bookings.POST newDate fresh now st u req).1 in
  ∀ fresh2 now2 u2 req2 d2,
    truthy (Bookings.serviceId req2) = Some (Booking.serviceId b) →
    truthy (Bookings.date req2) = Some d2 →
    newDate d2 = Some (Booking.date b) →
    Booking.providerId b ≠ Principal.userId u2 →
    Bookings.POST newDate fresh2 now2 st' u2 req2
    = (st', Fail Bookings.slot_taken).
Proof.
  intros Hok st' fresh2 now2 u2 req2 d2 Hsid Hd Ht Hother. subst st'.
  destruct (bookings_POST_effect newDate fresh now st u req)
    as [[f Hf]|(sid & d & t & svc & _ & _ & _ & Hsvc & Hact & _ & _ & _
                & Hout)];
    [by rewrite Hf in Hok|].
  simpl in Hout. rewrite Hout in Hok |- *. simpl in Hok.
  injection Hok as <-. simpl in *.
  rewrite (POST_bookable newDate fresh2 now2 _ u2 req2 sid d2 t svc);
    try done.
  destruct (findFirst _ _) as [c|] eqn:Hfree; [done|].
  assert (is_Some (findFirst (Bookings.conflicting sid t)
            (bookings (set_bookings
               (insert fresh
                  (Booking.mk fresh (Principal.userId u)
                     (Service.providerId svc) sid t "pending"
                     (Bookings.notes req) (Service.price svc) "pending" now
                     now)) st)))) as Hsome.
  { apply conflict_query. eexists fresh, _. simpl.
    split; [apply lookup_insert_eq|]. simpl. split_and!; try done.
    apply list_elem_of_here. }
  rewrite Hfree in Hsome. by apply is_Some_None in Hsome.
Qed.

Lemma second_booking_of_slot_conflicts_witness :
  Bookings.POST demo_newDate "B2" 150 booked customer2 demo_request
  = (booked, Fail Bookings.slot_taken).
Proof.
  exact (second_booking_of_slot_conflicts demo_newDate "B1" 100 demo_store
           customer1 demo_request _ eq_refl "B2" 150 customer2 demo_request
           "2024-06-01T10:00Z" eq_refl eq_refl eq_refl ltac:(discriminate)).
Defined.

(** In a store with one active booking per slot, a successful cancellation
    of an active booking leaves its slot free: no active booking holds it
    any more, and the next request for it, by anyone but the provider,
    is accepted. *)
Theorem cancel_frees_slot now st u id b :
  active_slots_unique st →
  bookings st !! id = Some b →
  active b →
  (BookingById.DELETE now st u id).2 = Ok () →
  let st' := (BookingById.DELETE now st u id).1 in
  ¬ slot_occupied st' (Booking.serviceId b) (Booking.date b) ∧
  ∀ (newDate : string → option Z) fresh now2 u2 req d svc,
    truthy (Bookings.serviceId req) = Some (Booking.serviceId b) →
    truthy (Bookings.date req) = Some d →
    newDate d = Some (Booking.date b) →
    services st !! Booking.serviceId b = Some svc →
    Service.isActive svc = true →
    Service.providerId svc ≠ Principal.userId u2 →
    bookings st !! fresh = None →
    ∃ b2, (Bookings.POST newDate fresh now2 st' u2 req).2 = Ok b2 ∧
          Booking.status b2 = "pending".
Proof.
  intros Hinv Hb Hact Hok st'. subst st'.
  destruct (cancel_effect now st u id) as [[f Hf]|(b0 & Hb0 & _ & _ & _ & Hout)];
    [by rewrite Hf in Hok|].
  assert (b0 = b) as -> by congruence. rewrite Hout. simpl.
  assert (¬ slot_occupied
            (set_bookings (insert id (touch now (with_status "cancelled" b)))
               st) (Booking.serviceId b) (Booking.date b)) as Hfree.
  { intros (k & b' & Hk & Hsid & Hdate & Hact'). simpl in Hk.
    destruct (decide (id = k)) as [<-|Hne].
    - rewrite lookup_insert_eq in Hk. injection Hk as <-.
      by apply (cancelled_not_active b).
    - rewrite lookup_insert_ne in Hk by done.
      apply Hne. by eapply (Hinv id k b b'). }
  split; [done|].
  intros newDate fresh now2 u2 req d svc Hsid Hd Ht Hsvc Hactive Hother Hfresh.
  rewrite (POST_bookable newDate fresh now2 _ u2 req (Booking.serviceId b) d
             (Booking.date b) svc); try done.
  destruct (findFirst _ _) as [c|] eqn:Hc.
  { destruct Hfree. apply conflict_query. rewrite Hc. eauto. }
  simpl. rewrite lookup_insert_ne by congruence. rewrite Hfresh. eauto.
Qed.

Lemma cancel_frees_slot_witness :
  ∃ b2, (Bookings.POST demo_newDate "B2" 500
           (BookingById.DELETE 400 booked customer1 "B1").1 customer2
           demo_request).2 = Ok b2 ∧
        Booking.status b2 = "pending".
Proof.
  assert (active_slots_unique booked) as Hinv.
  { apply bookings_POST_keeps_slots. intros k1 k2 b1 b2 H1.
    simpl in H1. by rewrite lookup_empty in H1. }
  destruct (cancel_frees_slot 400 booked customer1 "B1" _ Hinv eq_refl
              (list_elem_of_here _ _) eq_refl) as [_ Hnext].
  exact (Hnext demo_newDate "B2" 500 customer2 demo_request
           "2024-06-01T10:00Z" demo_service eq_refl eq_refl eq_refl eq_refl
           eq_refl ltac:(discriminate) eq_refl).
Defined.

(** ** Cancelling *)

(** Who may cancel goes by the relation to the booking, not by the role: a
    booking that is there and neither completed nor cancelled is cancelled
    exactly for its customer, its provider and admins, and everybody else is
    refused.  Cancelling writes [cancelled] and the time of the write into
    that one booking and touches nothing else.  So the customer of a
    booking who holds the provider role can cancel it here, while the
    status update refuses the same person. *)
Theorem cancel_outcome now st u id b :
  bookings st !! id = Some b →
  Booking.status b ≠ "completed" → Booking.status b ≠ "cancelled" →
  let out := BookingById.DELETE now st u id in
  let party :=
    Booking.userId b = Principal.userId u ∨
    Booking.providerId b = Principal.userId u ∨
    Principal.role u = Role.admin in
  (party → out = (set_bookings
                    (insert id (touch now (with_status "cancelled" b))) st,
                  Ok ())) ∧
  (¬ party → out = (st, Fail BookingById.unauthorized)) ∧
  (Principal.role u = Role.provider →
   Booking.userId b = Principal.userId u →
   Booking.providerId b ≠ Principal.userId u →
   out.2 = Ok () ∧
   fails_with Forbidden
     (BookingById.PUT now st u id
        (BookingById.mkRequest (Some "cancelled") None)).2).
Proof.
  intros Hb Hc Hx out party.
  assert (Hparty : party → out = (set_bookings
            (insert id (touch now (with_status "cancelled" b))) st, Ok ())).
  { intros Hp. subst out. unfold BookingById.DELETE. rewrite Hb.
    rewrite decide_False by (intros [|]; done).
    rewrite decide_False; [done|]. intros (H1 & H2 & H3).
    destruct Hp as [|[|]]; done. }
  split_and!.
  - exact Hparty.
  - intros Hno. subst out. unfold BookingById.DELETE. rewrite Hb.
    rewrite decide_False by (intros [|]; done).
    rewrite decide_True; [done|].
    split_and!; intros Heq; apply Hno; unfold party; auto.
  - intros Hrole Hcust Hprov. split.
    + rewrite Hparty; [done|]. by left.
    + unfold BookingById.PUT. rewrite Hb.
      destruct (decide (Principal.role u = Role.user ∧ _)) as [[Hr _]|_];
        [congruence|].
      by rewrite decide_True.
Qed.

Lemma cancel_outcome_witness :
  (BookingById.DELETE 200 booked_by_provider provider2 "B9").2 = Ok () ∧
  fails_with Forbidden
    (BookingById.PUT 200 booked_by_provider provider2 "B9"
       (BookingById.mkRequest (Some "cancelled") None)).2.
Proof.
  destruct (cancel_outcome 200 booked_by_provider provider2 "B9" _ eq_refl
              ltac:(discriminate) ltac:(discriminate)) as (_ & _ & Hboth).
  apply Hboth; [reflexivity|reflexivity|discriminate].
Defined.

(** ** What a status update leaves alone *)

Lemma updateData_frame req b :
  let b' := BookingById.updateData req b in
  Booking.id b' = Booking.id b ∧
  Booking.date b' = Booking.date b ∧
  Booking.totalPrice b' = Booking.totalPrice b ∧
  Booking.paymentStatus b' = Booking.paymentStatus b ∧
  Booking.createdAt b' = Booking.createdAt b ∧
  Booking.status b' = default (Booking.status b)
                        (truthy (BookingById.status req)) ∧
  Booking.notes b' = default (Booking.notes b) (BookingById.notes req).
Proof. unfold BookingById.updateData. by repeat case_match. Qed.

(** A successful update writes one booking and, of that booking, only the
    status, the notes and the time of the write: the parties, the service,
    the date, the price and the payment status stay, and so do all other
    bookings, the services and the reviews.  The status becomes the one
    requested, or stays when none is; the notes likewise. *)
Theorem transition_frame now st u id req b' :
  (BookingById.PUT now st u id req).2 = Ok b' →
  let st' := (BookingById.PUT now st u id req).1 in
  ∃ b, bookings st !! id = Some b ∧
       bookings st' = <[id := b']> (bookings st) ∧
       services st' = services st ∧ reviews st' = reviews st ∧
       Booking.id b' = Booking.id b ∧
       Booking.userId b' = Booking.userId b ∧
       Booking.providerId b' = Booking.providerId b ∧
       Booking.serviceId b' = Booking.serviceId b ∧
       Booking.date b' = Booking.date b ∧
       Booking.totalPrice b' = Booking.totalPrice b ∧
       Booking.paymentStatus b' = Booking.paymentStatus b ∧
       Booking.createdAt b' = Booking.createdAt b ∧
       Booking.updatedAt b' = now ∧
       Booking.status b' = default (Booking.status b)
                             (truthy (BookingById.status req)) ∧
       Booking.notes b' = default (Booking.notes b) (BookingById.notes req).
Proof.
  intros Hok st'. subst st'.
  destruct (PUT_effect now st u id req) as [[f Hf]|(b & Hb & _ & _ & _ & Hout)];
    [by rewrite Hf in Hok|].
  simpl in Hout. rewrite Hout in Hok |- *. simpl in Hok. injection Hok as <-.
  exists b. simpl.
  destruct (updateData_frame req b) as (? & ? & ? & ? & ? & ? & ?).
  destruct (updateData_parties req b) as [? ?].
  pose proof (updateData_serviceId req b).
  split_and!; done.
Qed.

Lemma transition_frame_witness :
  ∃ b, bookings completed_store !! "B1" = Some b ∧
       Booking.status b = "completed" ∧ Booking.totalPrice b = 50%Q.
Proof.
  destruct (transition_frame 200 booked provider1 "B1"
              (BookingById.mkRequest (Some "completed") None) _ eq_refl)
    as (b & Hb & Hst & _ & _ & _ & _ & _ & _ & _ & Hprice & _ & _ & _
        & Hstatus & _).
  eexists. split; [reflexivity|]. split; [exact Hstatus|].
  rewrite Hprice. vm_compute in Hb. by injection Hb as <-.
Defined.

(** A request without a status, or with the empty string for one, is no
    transition: it is never refused as an invalid one, and for an actor
    whose role matches the booking it succeeds whatever the booking's
    status, keeps that status and writes the notes when the request has
    them.  A customer can thus rewrite the notes of a booking that is
    completed or cancelled. *)
Theorem empty_status_is_no_transition now st u id req b :
  bookings st !! id = Some b →
  truthy (BookingById.status req) = None →
  (Principal.role u = Role.user → Booking.userId b = Principal.userId u) →
  (Principal.role u = Role.provider →
   Booking.providerId b = Principal.userId u) →
  let out := BookingById.PUT now st u id req in
  ∃ b', out.2 = Ok b' ∧ bookings out.1 !! id = Some b' ∧
        Booking.status b' = Booking.status b ∧
        Booking.notes b' = default (Booking.notes b) (BookingById.notes req).
Proof.
  intros Hb Hnone Hcust Hprov out. subst out. unfold BookingById.PUT.
  rewrite Hb.
  rewrite decide_False by (intros [Hr Hne]; auto).
  rewrite decide_False by (intros [Hr Hne]; auto).
  unfold BookingById.refused. rewrite Hnone. simpl.
  eexists. split; [done|]. split; [apply lookup_insert_eq|].
  destruct (updateData_frame req b) as (_ & _ & _ & _ & _ & Hs & Hn).
  simpl. rewrite Hs, Hn, Hnone. done.
Qed.

Lemma empty_status_is_no_transition_witness :
  ∃ b', (BookingById.PUT 300 completed_store customer1 "B1"
           (BookingById.mkRequest (Some "") (Some (Some "thanks")))).2
        = Ok b' ∧
        Booking.status b' = "completed" ∧ Booking.notes b' = Some "thanks".
Proof.
  destruct (empty_status_is_no_transition 300 completed_store customer1 "B1"
              (BookingById.mkRequest (Some "") (Some (Some "thanks"))) _
              eq_refl eq_refl (λ _, eq_refl) ltac:(discriminate))
    as (b' & Hok & _ & Hs & Hn).
  eauto.
Defined.

(** ** When a review is accepted *)

Lemma reviews_POST_accepts fresh now st u req bid q b :
  truthy (Reviews.bookingId req) = Some bid →
  Reviews.truthy_number (Reviews.rating req) = Some q →
  (1 <= q)%Q → (q <= 5)%Q →
  bookings st !! bid = Some b →
  Booking.userId b = Principal.userId u →
  Booking.status b = "completed" →
  ¬ reviewed st bid →
  reviews st !! fresh = None →
  is_Some (services st !! Booking.serviceId b) →
  ∃ rv, (Reviews.POST fresh now st u req).2 = Ok rv.
Proof.
  intros Hbid Hq Hlo Hhi Hb Hown Hdone Hnew Hfresh Hsvc.
  unfold Reviews.POST. rewrite Hbid, Hq, Hb, Hfresh.
  destruct (Qlt_le_dec q 1) as [Hlt|_]; [by apply Qlt_not_le in Hlt|].
  destruct (Qlt_le_dec 5 q) as [Hlt|_]; [by apply Qlt_not_le in Hlt|].
  rewrite decide_False by (by intros ?).
  rewrite decide_False by (by intros ?).
  destruct (findFirst _ _) eqn:Hrev.
  { destruct Hnew. apply review_query. rewrite Hrev. eauto. }
  match goal with
  | |- context [Reviews.updateServiceRating ?s1 ?sid] =>
      destruct (updateServiceRating_Some s1 sid Hsvc) as [st2 ->]
  end.
  eauto.
Qed.

(** A review is accepted exactly when the request names a booking and a
    rating from one to five, the booking is there, is the caller's own as
    a customer, is completed and has no review yet, the id for the new
    review is unused and the booking's service exists.  Nothing else is
    asked: not that the rating is a whole number, not the caller's role,
    not when the booking took place. *)
Theorem review_accepted_iff fresh now st u req :
  (∃ rv, (Reviews.POST fresh now st u req).2 = Ok rv) ↔
  ∃ bid q b,
    truthy (Reviews.bookingId req) = Some bid ∧
    Reviews.truthy_number (Reviews.rating req) = Some q ∧
    (1 <= q)%Q ∧ (q <= 5)%Q ∧
    bookings st !! bid = Some b ∧
    Booking.userId b = Principal.userId u ∧
    Booking.status b = "completed" ∧
    ¬ reviewed st bid ∧
    reviews st !! fresh = None ∧
    is_Some (services st !! Booking.serviceId b).
Proof.
  split.
  - intros [rv Hok].
    destruct (reviews_POST_effect fresh now st u req)
      as [[f Hf]|(bid & q & stars & b & Hbid & Hq & Hlo & Hhi & Hint & Hb
                  & Hown & Hdone & Hnew & Hfresh & Hout)];
      [by rewrite Hf in Hok|].
    exists bid, q, b. split_and!; try done.
    simpl in Hout.
    destruct (Reviews.updateServiceRating _ _) as [st2|] eqn:Hup;
      [|by rewrite Hout in Hok].
    unfold Reviews.updateServiceRating in Hup.
    destruct (decide _) as [_|Hlen] in Hup.
    + simpl in Hup. destruct (services st !! _); [eauto|done].
    + destruct Hlen. rewrite length_findMany.
      apply Nat.neq_0_lt_0, map_size_ne_0_lookup.
      eexists fresh, _. apply map_lookup_filter_Some.
      split; [apply lookup_insert_eq|done].
  - intros (bid & q & b & Hbid & Hq & Hlo & Hhi & Hb & Hown & Hdone
            & Hnew & Hfresh & Hsvc).
    by eapply reviews_POST_accepts.
Qed.

(** Whether a request is refused as invalid input is read off the request
    alone: a booking request exactly when the service id or the date is
    missing or empty, a review exactly when the booking id is missing or
    empty or the rating is missing, zero, below one or above five. *)
Theorem validation_reads_the_request_only :
  (∀ (newDate : string → option Z) fresh now st u req,
     fails_with ValidationError (Bookings.POST newDate fresh now st u req).2 ↔
     truthy (Bookings.serviceId req) = None ∨
     truthy (Bookings.date req) = None) ∧
  (∀ fresh now st u req,
     fails_with ValidationError (Reviews.POST fresh now st u req).2 ↔
     truthy (Reviews.bookingId req) = None ∨
     match Reviews.truthy_number (Reviews.rating req) with
     | None => True
     | Some q => (q < 1)%Q ∨ (5 < q)%Q
     end).
Proof.
  split.
  - intros newDate fresh now st u req.
    destruct (bookings_POST_effect newDate fresh now st u req)
      as [_|(sid & d & t & svc & Hsid & Hd & _ & _ & _ & _ & _ & _ & Hout)].
    + unfold Bookings.POST.
      destruct (truthy (Bookings.serviceId req)); [|simpl; tauto].
      destruct (truthy (Bookings.date req)); [|simpl; tauto].
      split; [|intros [|]; done].
      repeat case_match; simpl; done.
    + simpl in Hout. rewrite Hout, Hsid, Hd. simpl. split; [done|].
      intros [|]; done.
  - intros fresh now st u req. unfold Reviews.POST.
    destruct (truthy (Reviews.bookingId req)); [|simpl; tauto].
    destruct (Reviews.truthy_number _) as [q|]; [|simpl; tauto].
    destruct (Qlt_le_dec q 1) as [Hlt|Hlo]; [simpl; tauto|].
    destruct (Qlt_le_dec 5 q) as [Hlt|Hhi]; [simpl; tauto|].
    split.
    + repeat case_match; simpl; done.
    + intros [|[Hlt|Hlt]]; [done| |]; by apply Qlt_not_le in Hlt.
Qed.

(** ** Recomputing a rating *)

Lemma updateServiceRating_eq st s :
  Reviews.updateServiceRating st s =
  if decide (0 < review_count st s)%nat then
    match services st !! s with
    | None => None
    | Some svc =>
        Some (set_services
                (insert s
                   (with_rating
                      (Reviews.Math_round (mean_rating st s * 10) / 10)%Q
                      (review_count st s) svc)) st)
    end
  else Some st.
Proof.
  unfold Reviews.updateServiceRating, mean_rating, rating_total, review_count,
    linked_reviews.
  by rewrite length_findMany, sum_findMany.
Qed.

(** Recomputing the rating of a service twice is the same as doing it once.
    It writes the rating and the review count of that one service and
    nothing else, and for a service without reviews it writes nothing at
    all, so a rating is never reset. *)
Theorem updateServiceRating_idempotent st s st' :
  Reviews.updateServiceRating st s = Some st' →
  Reviews.updateServiceRating st' s = Some st' ∧
  bookings st' = bookings st ∧ reviews st' = reviews st ∧
  (∀ s', s' ≠ s → services st' !! s' = services st !! s') ∧
  (∀ svc', services st' !! s = Some svc' →
     ∃ svc, services st !! s = Some svc ∧
            Service.id svc' = Service.id svc ∧
            Service.providerId svc' = Service.providerId svc ∧
            Service.price svc' = Service.price svc ∧
            Service.isActive svc' = Service.isActive svc ∧
            Service.availability svc' = Service.availability svc) ∧
  (review_count st s = 0%nat → st' = st).
Proof.
  rewrite updateServiceRating_eq. intros Hup.
  assert (∀ x, review_count (set_services x st) s = review_count st s)
    as Hcount by done.
  assert (∀ x, mean_rating (set_services x st) s = mean_rating st s)
    as Hmean by done.
  destruct (decide (0 < review_count st s)%nat) as [Hpos|Hzero].
  - destruct (services st !! s) as [svc|] eqn:Hsvc; [|done].
    injection Hup as <-.
    rewrite updateServiceRating_eq, Hcount, Hmean.
    rewrite decide_True by done. simpl. rewrite lookup_insert_eq.
    split_and!; try done.
    + unfold set_services. simpl. by rewrite insert_insert_eq.
    + intros s' Hne. by rewrite lookup_insert_ne.
    + intros svc' [= <-]. exists svc. by split_and!.
    + intros Hnone. rewrite Hnone in Hpos. lia.
  - injection Hup as <-. rewrite updateServiceRating_eq.
    rewrite decide_False by done. split_and!; try done.
    intros svc' Hs. exists svc'. by split_and!.
Qed.

Lemma updateServiceRating_idempotent_witness :
  Reviews.updateServiceRating reviewed_store "S1" = Some reviewed_store.
Proof.
  exact (proj1 (updateServiceRating_idempotent
                  (set_reviews
                     (insert "R1"
                        (Review.mk "R1" "C1" "S1" "P1" "B1" 4 None 300))
                     completed_store)
                  "S1" reviewed_store eq_refl)).
Defined.

(** ** Looking at a booking *)

Lemma GET_Ok st u id d :
  BookingById.GET st u id = Ok d →
  bookings st !! id = Some (BookingById.booking d) ∧
  (Booking.userId (BookingById.booking d) = Principal.userId u ∨
   Booking.providerId (BookingById.booking d) = Principal.userId u ∨
   Principal.role u = Role.admin) ∧
  (BookingById.canReview d = true ↔
   Booking.status (BookingById.booking d) = "completed" ∧
   ¬ ∃ k r, reviews st !! k = Some r ∧ Review.bookingId r = id ∧
            Review.userId r = Principal.userId u).
Proof.
  unfold BookingById.GET. destruct (bookings st !! id) as [b|]; [|done].
  destruct (negb _ && negb _ && negb _) eqn:Hparty; [done|].
  intros [= <-]. simpl. split; [done|]. split.
  - apply andb_false_iff in Hparty as [Hparty|Hparty];
      [apply andb_false_iff in Hparty as [Hparty|Hparty]|];
      apply negb_false_iff, bool_decide_eq_true in Hparty; auto.
  - rewrite andb_true_iff, bool_decide_eq_true, negb_true_iff,
      bool_decide_eq_false, findFirst_is_Some.
    unfold BookingById.own_review. naive_solver.
Qed.

Lemma reviews_POST_Ok_written fresh now st u req rv bid :
  (Reviews.POST fresh now st u req).2 = Ok rv →
  truthy (Reviews.bookingId req) = Some bid →
  reviews (Reviews.POST fresh now st u req).1 !! fresh = Some rv ∧
  Review.bookingId rv = bid ∧
  Review.userId rv = Principal.userId u.
Proof.
  intros Hok Hbid.
  destruct (reviews_POST_effect fresh now st u req)
    as [[f Hf]|(bid' & q & stars & b & Hbid' & _ & _ & _ & _ & _ & _ & _ & _
                & _ & Hout)];
    [by rewrite Hf in Hok|].
  assert (bid' = bid) as -> by congruence. simpl in Hout.
  destruct (Reviews.updateServiceRating _ _) as [st2|] eqn:Hup;
    rewrite Hout in Hok |- *; simpl in *; [|done].
  injection Hok as <-. apply updateServiceRating_tables in Hup as [_ ->].
  simpl. by rewrite lookup_insert_eq.
Qed.

(** What the details of a booking say about reviewing it holds of the
    customer: in a store whose reviews belong to their bookings' customers,
    [canReview] is true for the customer exactly when the booking is
    completed and not reviewed, and then a whole rating from one to five is
    accepted; once a review is accepted the details say [false].  It does
    not hold of the other viewers: a provider or an admin who is not the
    customer is never allowed to review, whatever the details say. *)
Theorem canReview_means_reviewable st u id d :
  reviews_match_bookings st →
  id ≠ "" →
  BookingById.GET st u id = Ok d →
  let b := BookingById.booking d in
  (Booking.userId b = Principal.userId u →
   (BookingById.canReview d = true ↔
    Booking.status b = "completed" ∧ ¬ reviewed st id) ∧
   (BookingById.canReview d = true →
    ∀ fresh now q comment,
      (1 <= q)%Q → (q <= 5)%Q → (inject_Z (Qfloor q) == q)%Q →
      reviews st !! fresh = None →
      is_Some (services st !! Booking.serviceId b) →
      let out :=
        Reviews.POST fresh now st u
          (Reviews.mkRequest (Some id) (Some q) comment) in
      (∃ rv, out.2 = Ok rv) ∧
      ∃ d', BookingById.GET out.1 u id = Ok d' ∧
            BookingById.canReview d' = false)) ∧
  (Booking.userId b ≠ Principal.userId u →
   ∀ fresh now req,
     truthy (Reviews.bookingId req) = Some id →
     failed (Reviews.POST fresh now st u req).2).
Proof.
  intros Hinv Hid Hget b.
  destruct (GET_Ok st u id d Hget) as (Hb & Hparty & Hcan). fold b in Hb, Hcan.
  split.
  - intros Hown.
    assert (BookingById.canReview d = true ↔
            Booking.status b = "completed" ∧ ¬ reviewed st id) as Hiff.
    { rewrite Hcan. split; intros [Hdone Hnone]; (split; [done|]).
      - intros (k & r & Hk & Hr). apply Hnone. exists k, r.
        split_and!; try done.
        destruct (Hinv k r Hk) as (b0 & Hb0 & Hu & _).
        rewrite Hr, Hb in Hb0. injection Hb0 as <-. congruence.
      - intros (k & r & Hk & Hr & _). apply Hnone. by exists k, r. }
    split; [exact Hiff|].
    intros [Hdone Hnew]%Hiff fresh now q comment Hlo Hhi Hwhole Hfresh Hsvc out.
    assert (truthy (Some id) = Some id) as Htid
      by (simpl; by rewrite decide_False).
    assert (Reviews.truthy_number (Some q) = Some q) as Htq.
    { simpl. destruct (Qeq_dec q 0) as [Hz|]; [|done].
      rewrite Hz in Hlo. by apply Qle_not_lt in Hlo. }
    destruct (reviews_POST_accepts fresh now st u
                (Reviews.mkRequest (Some id) (Some q) comment) id q b)
      as [rv Hok]; try done.
    split; [by exists rv|]. subst out.
    destruct (reviews_POST_Ok_written _ _ _ _ _ _ id Hok Htid)
      as (Hlook & Hbid1 & Hu1).
    set (rv1 := rv) in *.
    unfold BookingById.GET. rewrite reviews_POST_bookings, Hb.
    rewrite (bool_decide_eq_true_2 _ Hown). simpl.
    eexists. split; [done|]. simpl.
    rewrite andb_false_iff. right.
    rewrite negb_false_iff, bool_decide_eq_true, findFirst_is_Some.
    exists fresh, rv1. by split.
  - intros Hother fresh now req Hbid. unfold Reviews.POST. rewrite Hbid, Hb.
    destruct (Reviews.truthy_number _); [|done].
    destruct (Qlt_le_dec _ _); [done|].
    destruct (Qlt_le_dec _ _); [done|].
    by rewrite decide_True.
Qed.

Lemma canReview_means_reviewable_witness :
  ∃ rv, (Reviews.POST "R1" 300 completed_store customer1
           (Reviews.mkRequest (Some "B1") (Some 4%Q) None)).2 = Ok rv.
Proof.
  assert (reviews_match_bookings completed_store) as Hnone.
  { intros k r Hk. vm_compute in Hk. discriminate Hk. }
  destruct (canReview_means_reviewable completed_store customer1 "B1" _ Hnone
              ltac:(discriminate) eq_refl) as [Hcustomer _].
  destruct (Hcustomer eq_refl) as [_ Hpost].
  destruct (Hpost eq_refl "R1" 300 4%Q None) as [Hok _];
    [discriminate|discriminate|reflexivity|reflexivity|by eexists|].
  exact Hok.
Defined.

(** ** The admin's update *)

Lemma PATCH_effect now st user bid updates :
  (∃ f, AdminBookings.PATCH now st user bid updates = (st, Fail f)) ∨
  ∃ id ups b,
    truthy bid = Some id ∧ updates = Some ups ∧ bookings st !! id = Some b ∧
    AdminBookings.rejected AdminBookings.validStatuses
      (AdminBookings.status ups) = false ∧
    AdminBookings.rejected AdminBookings.validPaymentStatuses
      (AdminBookings.paymentStatus ups) = false ∧
    let b' := touch now (AdminBookings.spread ups b) in
    AdminBookings.PATCH now st user bid updates
    = (set_bookings (insert id b') st, Ok b').
Proof.
  unfold AdminBookings.PATCH.
  destruct user as [u|]; [|eauto].
  destruct (decide _); [eauto|].
  destruct (truthy bid) as [id|]; [|eauto].
  destruct updates as [ups|]; [|eauto].
  destruct (AdminBookings.rejected _ (AdminBookings.status ups)) eqn:Hs;
    [eauto|].
  destruct (AdminBookings.rejected _ (AdminBookings.paymentStatus ups))
    eqn:Hp; [eauto|].
  destruct (bookings st !! id) as [b|] eqn:Hb; [|eauto].
  right. by exists id, ups, b.
Qed.

(** The admin's update writes nothing when it fails, refuses a status or a
    payment status outside its lists as invalid input, and never answers
    that a booking was not found: for a booking that is not there the
    update throws and the answer is 500, where the status update of the
    booking's own route answers 404. *)
Theorem admin_patch_failures now st u id ups :
  Principal.role u = Role.admin →
  id ≠ "" →
  let out := AdminBookings.PATCH now st (Some u) (Some id) (Some ups) in
  (failed out.2 → out.1 = st) ∧
  ¬ fails_with NotFound out.2 ∧
  (∀ s, truthy (AdminBookings.status ups) = Some s →
        s ∉ AdminBookings.validStatuses →
        out = (st, Fail AdminBookings.invalid_status)) ∧
  (AdminBookings.rejected AdminBookings.validStatuses
     (AdminBookings.status ups) = false →
   ∀ p, truthy (AdminBookings.paymentStatus ups) = Some p →
        p ∉ AdminBookings.validPaymentStatuses →
        out = (st, Fail AdminBookings.invalid_payment_status)) ∧
  (bookings st !! id = None →
   fails_with NotFound
     (BookingById.PUT now st u id (BookingById.mkRequest None None)).2 ∧
   (AdminBookings.rejected AdminBookings.validStatuses
      (AdminBookings.status ups) = false →
    AdminBookings.rejected AdminBookings.validPaymentStatuses
      (AdminBookings.paymentStatus ups) = false →
    out = (st, Fail internal_error))).
Proof.
  intros Hadmin Hid out.
  assert (Hout : out =
    if AdminBookings.rejected AdminBookings.validStatuses
         (AdminBookings.status ups)
    then (st, Fail AdminBookings.invalid_status)
    else if AdminBookings.rejected AdminBookings.validPaymentStatuses
              (AdminBookings.paymentStatus ups)
    then (st, Fail AdminBookings.invalid_payment_status)
    else match bookings st !! id with
         | None => (st, Fail internal_error)
         | Some b =>
             (set_bookings
                (insert id (touch now (AdminBookings.spread ups b))) st,
              Ok (touch now (AdminBookings.spread ups b)))
         end).
  { subst out. unfold AdminBookings.PATCH.
    rewrite decide_False by (by intros ?). simpl.
    by rewrite decide_False. }
  split_and!.
  - rewrite Hout. repeat case_match; simpl; done.
  - rewrite Hout. repeat case_match; simpl; by intros ?.
  - intros s Hs Hbad. rewrite Hout. unfold AdminBookings.rejected at 1.
    rewrite Hs. by rewrite bool_decide_eq_true_2.
  - intros Hs p Hp Hbad. rewrite Hout, Hs.
    unfold AdminBookings.rejected. rewrite Hp.
    by rewrite bool_decide_eq_true_2.
  - intros Hnone. split.
    + unfold BookingById.PUT. by rewrite Hnone.
    + intros Hs Hp. by rewrite Hout, Hs, Hp, Hnone.
Qed.

Lemma admin_patch_failures_witness :
  AdminBookings.PATCH 700 booked (Some admin1) (Some "B7")
    (Some (AdminBookings.mkUpdates (Some "confirmed") None None))
  = (booked, Fail internal_error).
Proof.
  destruct (admin_patch_failures 700 booked admin1 "B7"
              (AdminBookings.mkUpdates (Some "confirmed") None None)
              eq_refl ltac:(discriminate)) as (_ & _ & _ & _ & Hmissing).
  destruct (Hmissing eq_refl) as [_ Hout]. by apply Hout.
Defined.

(** For an admin and a booking that is there, the admin's update and the
    status update of the booking's own route are one operation on a
    request that names a status and notes: they accept the same statuses,
    and when they accept they leave the same store and answer with the same
    booking. *)
Theorem admin_patch_agrees_with_put now st u id b s n :
  Principal.role u = Role.admin →
  id ≠ "" →
  bookings st !! id = Some b →
  s ≠ Some "" →
  let patch :=
    AdminBookings.PATCH now st (Some u) (Some id)
      (Some (AdminBookings.mkUpdates s None n)) in
  let put := BookingById.PUT now st u id (BookingById.mkRequest s n) in
  patch.1 = put.1 ∧
  (∀ b', patch.2 = Ok b' ↔ put.2 = Ok b') ∧
  (failed patch.2 ↔ fails_with InvalidTransition put.2).
Proof.
  intros Hadmin Hid Hb Hs patch put. subst patch put.
  unfold AdminBookings.PATCH, BookingById.PUT.
  rewrite decide_False by (by intros ?). simpl.
  rewrite decide_False by done. rewrite Hb, Hadmin.
  rewrite decide_False by (by intros [? _]).
  rewrite decide_False by (by intros [? _]).
  unfold AdminBookings.rejected, BookingById.refused. simpl.
  assert (AdminBookings.spread (AdminBookings.mkUpdates s None n) b
          = BookingById.updateData (BookingById.mkRequest s n) b) as Hsame.
  { unfold AdminBookings.spread, BookingById.updateData. simpl.
    destruct s as [t|]; [|done]. simpl.
    destruct (decide (t = "")) as [->|]; done. }
  rewrite Hsame.
  destruct (truthy s) as [t|]; [|simpl; split_and!; try done; tauto].
  unfold AdminBookings.validStatuses.
  destruct (bool_decide _); simpl; split_and!; try done; tauto.
Qed.

Lemma admin_patch_agrees_with_put_witness :
  (AdminBookings.PATCH 200 booked (Some admin1) (Some "B1")
     (Some (AdminBookings.mkUpdates (Some "completed") None None))).1
  = (BookingById.PUT 200 booked admin1 "B1"
       (BookingById.mkRequest (Some "completed") None)).1.
Proof.
  exact (proj1 (admin_patch_agrees_with_put 200 booked admin1 "B1" _
                  (Some "completed") None eq_refl ltac:(discriminate)
                  eq_refl ltac:(discriminate))).
Defined.

(** ** A provider's update of a service *)

Lemma service_PUT_effect st u id req :
  ServiceById.PUT st u id req = (st, Fail ServiceById.not_found) ∧
  (¬ ∃ svc, services st !! id = Some svc ∧
            Service.providerId svc = Principal.userId u) ∨
  ∃ svc, services st !! id = Some svc ∧
         Service.providerId svc = Principal.userId u ∧
         ServiceById.PUT st u id req
         = (set_services (insert id (ServiceById.data req svc)) st,
            Ok (ServiceById.data req svc)).
Proof.
  unfold ServiceById.PUT. destruct (services st !! id) as [svc|] eqn:Hsvc.
  - destruct (decide _) as [Hown|Hother]; [right; eauto|].
    left. split; [done|]. intros (svc' & [= <-] & Hown). done.
  - left. split; [done|]. by intros (svc' & ? & _).
Qed.

(** Only its own provider updates a service: for a provider the update
    succeeds exactly when the service is there and owned by the caller,
    and every other provider is told, with nothing written, that it was
    not found.  It writes the price, the active flag and the availability
    of that one service and never its owner, its rating or its review
    count, nor any other service, booking or review. *)
Theorem service_update_by_owner_only st u id req :
  Principal.role u = Role.provider →
  let out := ServiceById.PUT st u id req in
  ((∃ svc', out.2 = Ok svc') ↔
   ∃ svc, services st !! id = Some svc ∧
          Service.providerId svc = Principal.userId u) ∧
  (failed out.2 → out = (st, Fail ServiceById.not_found)) ∧
  bookings out.1 = bookings st ∧ reviews out.1 = reviews st ∧
  (∀ s, s ≠ id → services out.1 !! s = services st !! s) ∧
  (∀ svc, services st !! id = Some svc →
     ∃ svc', services out.1 !! id = Some svc' ∧
             Service.id svc' = Service.id svc ∧
             Service.providerId svc' = Service.providerId svc ∧
             Service.rating svc' = Service.rating svc ∧
             Service.reviewCount svc' = Service.reviewCount svc).
Proof.
  intros _ out. subst out.
  destruct (service_PUT_effect st u id req)
    as [[-> Hnot]|(svc & Hsvc & Hown & ->)]; simpl.
  - split_and!; try done.
    + split; [by intros [? ?]|]. intros Hex. by destruct Hnot.
    + intros svc Hsvc. by exists svc.
  - split_and!; try done.
    + split; eauto.
    + intros s Hs. by rewrite lookup_insert_ne.
    + intros svc0 Hsvc0. rewrite lookup_insert_eq.
      assert (svc0 = svc) as -> by congruence. by eexists.
Qed.

Lemma service_update_by_owner_only_witness :
  ServiceById.PUT booked provider2 "S1"
    (ServiceById.mkRequest (Some 60%Q) None None)
  = (booked, Fail ServiceById.not_found).
Proof.
  destruct (service_update_by_owner_only booked provider2 "S1"
              (ServiceById.mkRequest (Some 60%Q) None None) eq_refl)
    as (_ & Hfail & _).
  apply Hfail. exact I.
Defined.

(** A change of a service reaches the bookings made afterwards and no
    booking made before: after a successful update, every booking is as it
    was, price included; a booking created from then on takes the price the
    update set; and once the update has switched the service off, a
    request for it is answered as for a service that is not there. *)
Theorem service_update_and_bookings st u id req svc' :
  Principal.role u = Role.provider →
  (ServiceById.PUT st u id req).2 = Ok svc' →
  let st' := (ServiceById.PUT st u id req).1 in
  bookings st' = bookings st ∧
  (∀ (newDate : string → option Z) fresh now u2 r b2,
     truthy (Bookings.serviceId r) = Some id →
     (Bookings.POST newDate fresh now st' u2 r).2 = Ok b2 →
     Booking.totalPrice b2 = Service.price svc' ∧
     ∀ k b, bookings st !! k = Some b →
            bookings (Bookings.POST newDate fresh now st' u2 r).1 !! k
            = Some b) ∧
  (∀ p, ServiceById.price req = Some p → Service.price svc' = p) ∧
  (ServiceById.isActive req = Some false →
   ∀ (newDate : string → option Z) fresh now u2 r d,
     truthy (Bookings.serviceId r) = Some id →
     truthy (Bookings.date r) = Some d →
     Bookings.POST newDate fresh now st' u2 r
     = (st', Fail Bookings.service_unavailable)).
Proof.
  intros _ Hok st'. subst st'.
  destruct (service_PUT_effect st u id req)
    as [[Hf _]|(svc & Hsvc & Hown & Hout)];
    [by rewrite Hf in Hok|].
  rewrite Hout in Hok |- *. simpl in Hok. injection Hok as <-. simpl.
  split_and!.
  - done.
  - intros newDate fresh now u2 r b2 Hsid Hok2.
    destruct (bookings_POST_effect newDate fresh now
                (set_services (insert id (ServiceById.data req svc)) st)
                u2 r)
      as [[f Hf]|(sid & d & t & svc2 & Hsid2 & _ & _ & Hsvc2 & _ & _ & _
                  & Hfresh & Hout2)];
      [by rewrite Hf in Hok2|].
    assert (sid = id) as -> by congruence.
    simpl in Hsvc2, Hout2, Hfresh. rewrite lookup_insert_eq in Hsvc2.
    injection Hsvc2 as <-. rewrite Hout2 in Hok2 |- *. simpl in Hok2.
    injection Hok2 as <-. simpl. split; [done|].
    intros k b Hk. rewrite lookup_insert_ne; [done|]. congruence.
  - intros p Hp. simpl. by rewrite Hp.
  - intros Hoff newDate fresh now u2 r d Hsid Hd.
    unfold Bookings.POST. rewrite Hsid, Hd. simpl.
    rewrite lookup_insert_eq. simpl. by rewrite Hoff.
Qed.

Lemma service_update_and_bookings_witness :
  ∃ b2, (Bookings.POST two_days_newDate "B2" 150
           (ServiceById.PUT booked provider1 "S1"
              (ServiceById.mkRequest (Some 60%Q) None None)).1
           customer2
           (Bookings.mkRequest (Some "S1") (Some "2024-06-02T10:00Z")
              None)).2 = Ok b2 ∧
        Booking.totalPrice b2 = 60%Q.
Proof.
  destruct (service_update_and_bookings booked provider1 "S1"
              (ServiceById.mkRequest (Some 60%Q) None None) _ eq_refl
              eq_refl)
    as (_ & Hnew & _).
  eexists. split; [reflexivity|].
  exact (proj1 (Hnew two_days_newDate "B2" 150 customer2
                  (Bookings.mkRequest (Some "S1")
                     (Some "2024-06-02T10:00Z") None) _ eq_refl eq_refl)).
Defined.

(** ** The list of bookings *)

Lemma sublist_reverse {A} (l1 l2 : list A) :
  l1 `sublist_of` l2 → reverse l1 `sublist_of` reverse l2.
Proof.
  induction 1 as [|x l1 l2 _ IH|x l1 l2 _ IH]; [done|..];
    rewrite ?reverse_cons.
  - by apply sublist_app.
  - rewrite <- (app_nil_r (reverse l1)). apply sublist_app; [done|].
    apply sublist_nil_l.
Qed.

Lemma window_sublist {A} skip take (l : list A) :
  Listing.window skip take l `sublist_of` l.
Proof.
  unfold Listing.window. case_decide.
  - etrans; [apply sublist_take|apply sublist_drop].
  - rewrite <- (reverse_involutive l) at 2. apply sublist_reverse.
    etrans; [apply sublist_take|apply sublist_drop].
Qed.

Lemma window_length {A} skip take (l : list A) :
  (length (Listing.window skip take l) ≤ Z.abs_nat take)%nat.
Proof.
  unfold Listing.window.
  case_decide; rewrite ?length_reverse, length_take; lia.
Qed.

Lemma StronglySorted_sublist {A} (R : relation A) (l1 l2 : list A) :
  l1 `sublist_of` l2 → StronglySorted R l2 → StronglySorted R l1.
Proof.
  induction 1 as [|x l1 l2 Hsub IH|x l1 l2 Hsub IH]; [done|..];
    inversion_clear 1 as [|? ? Hl2 Hx].
  - constructor; [by apply IH|].
    rewrite Forall_forall in Hx |- *.
    intros y Hy. apply Hx. by eapply elem_of_sublist.
  - by apply IH.
Qed.

#[local] Instance newest_first_total : Total Listing.newest_first.
Proof. intros a b. unfold Listing.newest_first. lia. Qed.

#[local] Instance newest_first_trans : Transitive Listing.newest_first.
Proof. intros a b c. unfold Listing.newest_first. lia. Qed.

Lemma listing_Ok (parseInt : string → option Z) st u q pg :
  Listing.GET parseInt st u q = Ok pg →
  ∃ page limit,
    parseInt (Listing.or_else (Listing.Query.page q) "1") = Some page ∧
    parseInt (Listing.or_else (Listing.Query.limit q) "10") = Some limit ∧
    0 ≤ (page - 1) * limit ∧
    let found :=
      findMany (Listing.where_clause u (Listing.Query.status q))
        (bookings st) in
    pg = Listing.mkPage
           (Listing.window ((page - 1) * limit) limit
              (merge_sort Listing.newest_first found))
           (Listing.Pagination.mk page limit (length found)
              (Listing.pages_of (length found) limit)).
Proof.
  unfold Listing.GET.
  destruct (parseInt (Listing.or_else (Listing.Query.page q) "1"))
    as [page|]; [|done].
  destruct (parseInt (Listing.or_else (Listing.Query.limit q) "10"))
    as [limit|]; [|done].
  case_decide; [done|]. do 2 (case_decide; [done|]).
  intros [= <-]. exists page, limit.
  split_and!; try done. lia.
Qed.

(** The list shows a caller their own bookings only: every booking listed
    is in the store, is the caller's as a customer when the caller is a
    user and as a provider when the caller is a provider, and has the
    status asked for when one is.  A page holds at most [limit] bookings,
    newest first, and [total] counts all the bookings the caller may
    see. *)
Theorem listing_is_scoped (parseInt : string → option Z) st u q pg :
  Listing.GET parseInt st u q = Ok pg →
  (∀ b, b ∈ Listing.rows pg →
     (∃ k, bookings st !! k = Some b) ∧
     (Principal.role u = Role.user →
      Booking.userId b = Principal.userId u) ∧
     (Principal.role u = Role.provider →
      Booking.providerId b = Principal.userId u) ∧
     (∀ s, truthy (Listing.Query.status q) = Some s →
           Booking.status b = s)) ∧
  (length (Listing.rows pg)
   ≤ Z.abs_nat (Listing.Pagination.limit (Listing.pagination pg)))%nat ∧
  StronglySorted (λ a b, Booking.createdAt b ≤ Booking.createdAt a)
    (Listing.rows pg) ∧
  Listing.Pagination.total (Listing.pagination pg)
  = size (filter
            (λ kb, Listing.where_clause u (Listing.Query.status q) kb.2)
            (bookings st)).
Proof.
  intros Hok.
  destruct (listing_Ok parseInt st u q pg Hok)
    as (page & limit & _ & _ & _ & ->).
  simpl. split_and!.
  - intros b Hb.
    eapply elem_of_sublist in Hb; [|apply window_sublist].
    rewrite merge_sort_Permutation in Hb.
    apply elem_of_findMany in Hb as [(Hu & Hp & Hs) [k Hk]].
    split_and!; eauto. intros s Hq. by rewrite Hq in Hs.
  - apply window_length.
  - eapply StronglySorted_sublist; [apply window_sublist|].
    apply (StronglySorted_merge_sort Listing.newest_first).
  - apply length_findMany.
Qed.

Lemma listing_is_scoped_witness :
  ∃ pg, Listing.GET demo_parseInt two_bookings customer1
          (Listing.Query.mk None None None) = Ok pg ∧
        ∀ b, b ∈ Listing.rows pg → Booking.userId b = "C1".
Proof.
  eexists. split; [reflexivity|]. intros b Hb.
  destruct (listing_is_scoped demo_parseInt two_bookings customer1
              (Listing.Query.mk None None None) _ eq_refl) as [Hrows _].
  destruct (Hrows b Hb) as (_ & Huser & _). by apply Huser.
Defined.

(** Nothing the caller may see is left out: on the first page, with a
    limit that fits 64 bits and is no smaller than the number of bookings
    the caller may see, every such booking of the store is listed, and the
    page count is one unless there is none. *)
Theorem listing_first_page_complete (parseInt : string → option Z) st u q
    limit :
  parseInt (Listing.or_else (Listing.Query.page q) "1") = Some 1 →
  parseInt (Listing.or_else (Listing.Query.limit q) "10") = Some limit →
  let visible :=
    filter (λ kb, Listing.where_clause u (Listing.Query.status q) kb.2)
      (bookings st) in
  0 < limit → limit < 2 ^ 63 →
  Z.of_nat (size visible) ≤ limit →
  ∃ pg, Listing.GET parseInt st u q = Ok pg ∧
        (∀ k b, visible !! k = Some b → b ∈ Listing.rows pg) ∧
        length (Listing.rows pg) = size visible ∧
        Listing.Pagination.pages (Listing.pagination pg)
        = Some (if decide (size visible = 0%nat) then 0 else 1).
Proof.
  intros Hpage Hlimit visible Hpos Hbound Hfits.
  unfold Listing.GET. rewrite Hpage, Hlimit. simpl.
  change (2 ^ 63) with 9223372036854775808 in Hbound.
  rewrite !decide_False
    by (unfold Listing.fits_Int64;
        change (2 ^ 63) with 9223372036854775808; lia).
  eexists. split; [done|]. simpl.
  pose proof (length_findMany
                (Listing.where_clause u (Listing.Query.status q))
                (bookings st)) as Hlen.
  fold visible in Hlen.
  assert (Listing.window 0 limit
            (merge_sort Listing.newest_first
               (findMany (Listing.where_clause u (Listing.Query.status q))
                  (bookings st)))
          ≡ₚ findMany (Listing.where_clause u (Listing.Query.status q))
               (bookings st)) as Hall.
  { unfold Listing.window. rewrite decide_True by lia.
    rewrite drop_0, take_ge; [apply merge_sort_Permutation|].
    rewrite merge_sort_Permutation. lia. }
  split_and!.
  - intros k b [Hk Hw]%map_lookup_filter_Some. rewrite Hall.
    apply elem_of_findMany. eauto.
  - by rewrite Hall.
  - unfold Listing.pages_of. rewrite decide_False by lia. f_equal.
    rewrite Hlen. case_decide as Hz.
    + rewrite Hz. simpl. by rewrite Z.div_0_l by lia.
    + assert ((- Z.of_nat (size visible)) `div` limit = -1); [|lia].
      symmetry.
      apply Z.div_unique_pos with (r := limit - Z.of_nat (size visible));
        lia.
Qed.

Lemma listing_first_page_complete_witness :
  ∃ pg, Listing.GET demo_parseInt two_bookings admin1
          (Listing.Query.mk None None None) = Ok pg ∧
        length (Listing.rows pg) = 2%nat.
Proof.
  destruct (listing_first_page_complete demo_parseInt two_bookings admin1
              (Listing.Query.mk None None None) 10 eq_refl eq_refl
              ltac:(lia) ltac:(lia) ltac:(vm_compute; discriminate))
    as (pg & Hok & _ & Hlen & _).
  exists pg. split; [exact Hok|]. rewrite Hlen. reflexivity.
Defined.
